(** * Uptime monitor: the check engine of [server.js]

    A shallow embedding of the monitor scheduling and health-check code of
    [src/server.js]: the retrying probe [checkOnce], the capped history, the
    alert trigger, the derived views, the create / patch handlers and the
    event loop on which timers, sweeps and in-flight checks interleave.

    Conventions.
    - Status codes, clock readings ([Date.now()]) and counters are integers
      ([Z]); a field that can hold [null] is an [option].
    - The network and the clock are the environment: a probe reads them
      through a function from the attempt number to what happened.
    - Persistence ([saveMonitors]) never changes a monitor and is left out.
    - [uptimeFromHistory] is computed in binary64 floating point, as the
      source computes it, and compared with the formula over exact
      rationals. *)

From Stdlib Require Import ZArith QArith Qround Lia Floats Uint63.
From stdpp Require Import gmap strings list fin_maps.

Local Open Scope Z_scope.

(** ** Constants *)

Definition DEFAULT_INTERVAL_MS : Z := 5000.
Definition MAX_RETRIES : nat := 3.
Definition RETRY_DELAY_MS : Z := 1000.
(** The literal [200] of [history.length > 200] and [slice(-200)]. *)
Definition HISTORY_CAP : nat := 200.
(** The literal [2000] of the create and patch handlers. *)
Definition INTERVAL_FLOOR : Z := 2000.

(** ** JavaScript numbers and request-body values *)

(** A number as [Number(x)] can yield it. *)
Inductive jsnum : Type :=
  | Fin (q : Q)
  | NaN
  | PInf
  | NInf.

(** A field of a parsed JSON body. [JObject n] stands for an array or an
    object, and carries what [Number] yields for it. *)
Inductive jsval : Type :=
  | JUndefined
  | JNull
  | JBool (b : bool)
  | JNum (n : jsnum)
  | JStr (s : string)
  | JObject (n : jsnum).

(** ** Data model *)

Module Point.
Record point : Type := mk {
  t : Z;
  up : bool;
  status : Z;
  ms : Z;
  attempt : nat;
  forced : bool;
  error : option string
}.
End Point.

Module Monitor.
Record monitor : Type := mk {
  id : string;
  name : option string;
  url : string;
  intervalMs : jsnum;
  history : list Point.point;
  lastStatus : option Z;
  lastLatency : option Z;
  lastChecked : option Z;
  enabled : bool;
  retryCount : Z;
  lastError : option string;
  consecutiveFailures : Z;
  forceCheck : bool
}.
End Monitor.

Module Alert.
Record alert : Type := mk {
  monitorId : string;
  monitorName : string;
  url : string;
  timestamp : Z;
  wasUp : bool;
  nowUp : bool;
  error : option string;
  status : option Z;
  latency : option Z
}.
End Alert.

Abbreviation point := Point.point.
Abbreviation monitor := Monitor.monitor.
Abbreviation alert := Alert.alert.

(** ** The environment of a probe *)

Inductive NetResult : Type :=
  | Response (status : Z)
  | TransportError (message : string).

(** What one attempt observes: how [axios.get] settled and the three clock
    readings taken afterwards (latency, [point.t], alert timestamp). *)
Record Attempt : Type := mkAttempt {
  result : NetResult;
  nowLatency : Z;
  nowPoint : Z;
  nowAlert : Z
}.

(** ** Small helpers for JavaScript idioms *)

(** [s >= 200 && s < 400] on a number. *)
Definition isUpStatus (s : Z) : bool := (200 <=? s) && (s <? 400).

(** [monitor.lastStatus >= 200 && monitor.lastStatus < 400]; [null >= 200]
    is false. *)
Definition statusIsUp (ls : option Z) : bool :=
  match ls with
  | Some s => isUpStatus s
  | None => false
  end.

(** [m.lastStatus < 200 || m.lastStatus >= 400]; [null < 200] is true. *)
Definition statusIsDown (ls : option Z) : bool :=
  match ls with
  | Some s => (s <? 200) || (400 <=? s)
  | None => true
  end.

(** [x || 0] on a number. *)
Definition orZero (x : Z) : Z := if x =? 0 then 0 else x.

(** [monitor.name || monitor.url]. *)
Definition nameOrUrl (m : monitor) : string :=
  match Monitor.name m with
  | Some s => if String.eqb s "" then Monitor.url m else s
  | None => Monitor.url m
  end.

(** [history.push(point); if (history.length > 200) history.shift()]. *)
Definition pushShift (h : list point) (p : point) : list point :=
  let h' := h ++ [p] in
  if (HISTORY_CAP <? length h')%nat then tail h' else h'.

(** ** [triggerAlert] *)

(** Builds the alert that is handed to every registered callback; a callback
    that throws is caught, so the caller always continues. *)
Definition triggerAlert (m : monitor) (wasUp nowUp : bool)
    (err : option string) (now : Z) : alert :=
  Alert.mk (Monitor.id m) (nameOrUrl m) (Monitor.url m) now wasUp nowUp err
    (Monitor.lastStatus m) (Monitor.lastLatency m).

(** ** [checkOnce] *)

(** The fields a recorded attempt overwrites. *)
Definition recordCheck (m : monitor) (st : Z) (latency : Z) (t : Z)
    (err : option string) (rc cf : Z) (p : point) : monitor :=
  Monitor.mk (Monitor.id m) (Monitor.name m) (Monitor.url m)
    (Monitor.intervalMs m) (pushShift (Monitor.history m) p)
    (Some st) (Some latency) (Some t) (Monitor.enabled m) rc err cf
    (Monitor.forceCheck m).

(** The [try] branch of the loop body: [axios.get] resolved. *)
Definition onResponse (m : monitor) (isForced : bool) (started : Z)
    (attempt : nat) (status : Z) (a : Attempt) : monitor * list alert :=
  let latency := nowLatency a - started in
  let isUp := isUpStatus status in
  let wasUp := statusIsUp (Monitor.lastStatus m) in
  let p := Point.mk (nowPoint a) isUp status latency attempt isForced None in
  let cf := if isUp then 0 else orZero (Monitor.consecutiveFailures m) + 1 in
  let m' := recordCheck m status latency (Point.t p) None 0 cf p in
  (m', if Bool.eqb wasUp isUp then [] else [triggerAlert m' wasUp isUp None (nowAlert a)]).

(** The [catch] branch of the loop body: [axios.get] rejected. *)
Definition onError (m : monitor) (isForced : bool) (started : Z)
    (attempt : nat) (message : string) (a : Attempt) : monitor * list alert :=
  let latency := nowLatency a - started in
  let wasUp := statusIsUp (Monitor.lastStatus m) in
  if (attempt =? MAX_RETRIES)%nat then
    let p := Point.mk (nowPoint a) false 0 latency attempt isForced (Some message) in
    let m' := recordCheck m 0 latency (Point.t p) (Some message)
                (orZero (Monitor.retryCount m) + 1)
                (orZero (Monitor.consecutiveFailures m) + 1) p in
    (m', if wasUp then [triggerAlert m' wasUp false (Some message) (nowAlert a)] else [])
  else (m, []).

(** One pass through the loop body; the boolean tells whether the body ended
    in [break]. *)
Definition attemptStep (m : monitor) (isForced : bool) (started : Z)
    (attempt : nat) (a : Attempt) : monitor * list alert * bool :=
  match result a with
  | Response status =>
      (onResponse m isForced started attempt status a,
       isUpStatus status || (attempt =? MAX_RETRIES)%nat)
  | TransportError message =>
      (onError m isForced started attempt message a, false)
  end.

(** [for (attempt = 1; attempt <= MAX_RETRIES; attempt++)], over the attempt
    numbers still to run. *)
Fixpoint retryLoop (net : nat -> Attempt) (isForced : bool) (started : Z)
    (attempts : list nat) (m : monitor) : monitor * list alert :=
  match attempts with
  | [] => (m, [])
  | attempt :: rest =>
      let '(m', al, brk) := attemptStep m isForced started attempt (net attempt) in
      if brk then (m', al)
      else
        let '(m'', al') := retryLoop net isForced started rest m' in
        (m'', al ++ al')
  end.

Definition checkOnce (net : nat -> Attempt) (started : Z) (m : monitor)
    (isForced : bool) : monitor * list alert :=
  if negb (Monitor.enabled m) && negb isForced then (m, [])
  else retryLoop net isForced started (seq 1 MAX_RETRIES) m.

(** ** Views of a probe

    What a probe records, read off the environment alone: the point an
    attempt pushes (if any), whether the attempt leaves the loop, and the
    points of a whole probe in the order they are pushed. *)

Definition attemptPoint (isForced : bool) (started : Z) (attempt : nat)
    (a : Attempt) : option point :=
  match result a with
  | Response status =>
      Some (Point.mk (nowPoint a) (isUpStatus status) status
              (nowLatency a - started) attempt isForced None)
  | TransportError message =>
      if (attempt =? MAX_RETRIES)%nat then
        Some (Point.mk (nowPoint a) false 0 (nowLatency a - started)
                attempt isForced (Some message))
      else None
  end.

Definition attemptBreaks (attempt : nat) (a : Attempt) : bool :=
  match result a with
  | Response status => isUpStatus status || (attempt =? MAX_RETRIES)%nat
  | TransportError _ => false
  end.

Fixpoint probePoints (net : nat -> Attempt) (isForced : bool) (started : Z)
    (attempts : list nat) : list point :=
  match attempts with
  | [] => []
  | attempt :: rest =>
      let ps := option_list (attemptPoint isForced started attempt (net attempt)) in
      if attemptBreaks attempt (net attempt) then ps
      else ps ++ probePoints net isForced started rest
  end.

(** The points pushed by [checkOnce]. *)
Definition checkPoints (net : nat -> Attempt) (started : Z) (m : monitor)
    (isForced : bool) : list point :=
  if negb (Monitor.enabled m) && negb isForced then []
  else probePoints net isForced started (seq 1 MAX_RETRIES).

(** The changes of classification along a chain of results that starts from
    [prev]: one pair (was, now) per flip. *)
Fixpoint transitions (prev : bool) (ups : list bool) : list (bool * bool) :=
  match ups with
  | [] => []
  | b :: rest =>
      (if Bool.eqb prev b then [] else [(prev, b)]) ++ transitions b rest
  end.

Definition alertFlip (a : alert) : bool * bool := (Alert.wasUp a, Alert.nowUp a).

(** [arr.slice(-n)]: the last [n] elements. *)
Definition sliceLast {A : Type} (n : nat) (l : list A) : list A :=
  drop (length l - n)%nat l.

(** A sequence of checks of one monitor, each with its own environment. *)
Record Check : Type := mkCheck {
  checkNet : nat -> Attempt;
  checkStarted : Z;
  checkForced : bool
}.

Definition runCheck (m : monitor) (c : Check) : monitor :=
  (checkOnce (checkNet c) (checkStarted c) m (checkForced c)).1.

Definition runChecks (cs : list Check) (m : monitor) : monitor :=
  foldl runCheck m cs.


(** ** Derived views *)

(** [Math.round] over the rationals: the integer nearest to [x], halves
    rounded up. *)
Definition jsRound (x : Q) : Z := Qfloor (x + (1 # 2)).

Definition upCount (history : list point) : nat :=
  length (List.filter Point.up history).

(** Following the words of the specification:
    [round(upCount/total * 1000)/10], and 0 for an empty history, over exact
    rationals. *)
Definition uptimePct (history : list point) : Q :=
  if (length history =? 0)%nat then 0%Q
  else
    (inject_Z (jsRound ((inject_Z (Z.of_nat (upCount history))
                         / inject_Z (Z.of_nat (length history))) * 1000))
       / 10)%Q.

(** A count and an integer as JavaScript numbers (doubles). *)
Definition floatOfNat (n : nat) : float :=
  PrimFloat.of_uint63 (Uint63.of_Z (Z.of_nat n)).

Definition floatOfZ (z : Z) : float :=
  if z <? 0 then PrimFloat.opp (PrimFloat.of_uint63 (Uint63.of_Z (- z)))
  else PrimFloat.of_uint63 (Uint63.of_Z z).

(** The integer [Math.round] yields on a finite double: the floor of its
    exact value plus one half. *)
Definition roundToZ (x : float) : option Z :=
  match Prim2SF x with
  | S754_zero _ => Some 0
  | S754_finite s m e =>
      let v := if s then Z.neg m else Z.pos m in
      Some (if 0 <=? e then v * 2 ^ e
            else (2 * v + 2 ^ (- e)) / 2 ^ (- e + 1))
  | _ => None
  end.

(** [Math.round]; infinities and NaN are returned as they are. *)
Definition mathRound (x : float) : float :=
  match roundToZ x with
  | Some z => floatOfZ z
  | None => x
  end.

(** [(up / history.length) * 1000] in doubles. *)
Definition scaledRatio (up total : nat) : float :=
  PrimFloat.mul (PrimFloat.div (floatOfNat up) (floatOfNat total)) 1000%float.

Definition uptimeFromHistory (history : list point) : float :=
  if (length history =? 0)%nat then 0%float
  else
    let up := upCount history in
    PrimFloat.div (mathRound (scaledRatio up (length history))) 10%float.

(** [round(1000 * up / total)] by integer arithmetic. *)
Definition exactTenths (up total : nat) : Z :=
  (2000 * Z.of_nat up + Z.of_nat total) / (2 * Z.of_nat total).

(** The double computation rounds to [exactTenths] for every count out of
    [total] points. *)
Definition roundsExactly (total : nat) : bool :=
  forallb
    (fun up =>
       match roundToZ (scaledRatio up total) with
       | Some z => z =? exactTenths up total
       | None => false
       end)
    (seq 0 (S total)).

(** [Math.max(2000, Math.floor(intervalMs * 0.8))] for an interval of a
    whole number of milliseconds. *)
Definition attemptTimeout (intervalMs : Z) : Z :=
  Z.max 2000 (intervalMs * 8 / 10).

(** The longest a probe can stay in flight: every attempt runs into its
    timeout, with the retry delay between attempts. *)
Definition probeWorstCaseMs (intervalMs : Z) : Z :=
  Z.of_nat MAX_RETRIES * attemptTimeout intervalMs
  + (Z.of_nat MAX_RETRIES - 1) * RETRY_DELAY_MS.

(** ** Request handling: create and patch *)

(** The string primitives of the host: [String.prototype.trim], the test
    [/^https?:\/\//i] and [Number] on a string. *)
Record StringOps : Type := mkStringOps {
  trim : string -> string;
  hasHttpScheme : string -> bool;
  strToNumber : string -> jsnum
}.

Definition toNumber (ops : StringOps) (v : jsval) : jsnum :=
  match v with
  | JUndefined => NaN
  | JNull => Fin 0
  | JBool b => if b then Fin 1 else Fin 0
  | JNum n => n
  | JStr s => strToNumber ops s
  | JObject n => n
  end.

(** Truthiness of a number: [0] and [NaN] are falsy. *)
Definition numTruthy (n : jsnum) : bool :=
  match n with
  | Fin q => negb (Qeq_bool q 0)
  | NaN => false
  | PInf | NInf => true
  end.

Definition truthy (v : jsval) : bool :=
  match v with
  | JUndefined | JNull => false
  | JBool b => b
  | JNum n => numTruthy n
  | JStr s => negb (String.eqb s "")
  | JObject _ => true
  end.

(** [n < c] and [n >= c] against a finite constant. *)
Definition numLt (n : jsnum) (c : Q) : bool :=
  match n with
  | Fin q => negb (Qle_bool c q)
  | NaN | PInf => false
  | NInf => true
  end.

Definition numGe (n : jsnum) (c : Q) : bool :=
  match n with
  | Fin q => Qle_bool c q
  | PInf => true
  | NaN | NInf => false
  end.

Definition numIsFinite (n : jsnum) : bool :=
  match n with
  | Fin _ => true
  | _ => false
  end.

Definition isUndefined (v : jsval) : bool :=
  match v with
  | JUndefined => true
  | _ => false
  end.

Inductive reply (A : Type) : Type :=
  | Ok (a : A)
  | BadRequest
  | NotFound
  | Threw.
Arguments Ok {A} a.
Arguments BadRequest {A}.
Arguments NotFound {A}.
Arguments Threw {A}.

(** [name ? name.trim() : null]; a truthy value that is not a string has no
    [trim] method and the call throws. *)
Definition normalizeName (ops : StringOps) (name : jsval) : option (option string) :=
  if truthy name then
    match name with
    | JStr s => Some (Some (trim ops s))
    | _ => None
    end
  else Some None.

(** [url.trim()], with [http://] prepended when no scheme is present. *)
Definition normalizeUrl (ops : StringOps) (url : string) : string :=
  let u := trim ops url in
  if hasHttpScheme ops u then u else ("http://" ++ u)%string.

(** [Number(intervalMs) || DEFAULT_INTERVAL_MS]. *)
Definition numberOrDefault (ops : StringOps) (v : jsval) : jsnum :=
  let n := toNumber ops v in
  if numTruthy n then n else Fin (inject_Z DEFAULT_INTERVAL_MS).

(** The interval stored by [POST /api/monitors]. *)
Definition createInterval (ops : StringOps) (v : jsval) : jsnum :=
  let n := numberOrDefault ops v in
  if numLt n (inject_Z INTERVAL_FLOOR) then Fin (inject_Z INTERVAL_FLOOR) else n.

Record CreateBody : Type := mkCreateBody {
  cName : jsval;
  cUrl : jsval;
  cIntervalMs : jsval
}.

Definition newMonitor (id : string) (name : option string) (url : string)
    (intervalMs : jsnum) : monitor :=
  Monitor.mk id name url intervalMs [] None None None true 0 None 0 false.

(** [app.post('/api/monitors')]: the monitor that is stored, or the way the
    request fails. [id] is the identifier [nanoid] hands out. *)
Definition createMonitor (ops : StringOps) (id : string) (body : CreateBody)
    : reply monitor :=
  match cUrl body with
  | JStr u =>
      if String.eqb u "" then BadRequest
      else
        match normalizeName ops (cName body) with
        | None => Threw
        | Some name =>
            Ok (newMonitor id name (normalizeUrl ops u)
                  (createInterval ops (cIntervalMs body)))
        end
  | _ => BadRequest
  end.

(** One entry of [app.post('/api/monitors/bulk')]: [None] when the entry is
    skipped by [continue]. The interval is not compared with the floor. *)
Definition bulkMonitor (ops : StringOps) (id : string) (raw : string)
    (name : jsval) (intervalMs : jsval) : reply (option monitor) :=
  let url := trim ops raw in
  if String.eqb url "" then Ok None
  else
    match normalizeName ops name with
    | None => Threw
    | Some nm =>
        Ok (Some (newMonitor id nm
                    (if hasHttpScheme ops url then url else ("http://" ++ url)%string)
                    (numberOrDefault ops intervalMs)))
    end.

Record PatchBody : Type := mkPatchBody {
  pName : jsval;
  pUrl : jsval;
  pIntervalMs : jsval;
  pEnabled : jsval
}.

(** The interval after [PATCH]: a supplied value is taken only when it is
    finite and at least 2000. *)
Definition patchInterval (ops : StringOps) (old : jsnum) (v : jsval) : jsnum :=
  if isUndefined v then old
  else
    let iv := toNumber ops v in
    if numIsFinite iv && numGe iv (inject_Z INTERVAL_FLOOR) then iv else old.

(** [app.patch('/api/monitors/:id')] on the monitor found under the id. *)
Definition patchMonitor (ops : StringOps) (m : monitor) (body : PatchBody)
    : reply monitor :=
  let name' :=
    if isUndefined (pName body) then Some (Monitor.name m)
    else normalizeName ops (pName body) in
  match name' with
  | None => Threw
  | Some name =>
      let url :=
        match pUrl body with
        | JStr u =>
            if String.eqb (trim ops u) "" then Monitor.url m
            else normalizeUrl ops u
        | _ => Monitor.url m
        end in
      let intervalMs := patchInterval ops (Monitor.intervalMs m) (pIntervalMs body) in
      let enabled :=
        if isUndefined (pEnabled body) then Monitor.enabled m
        else truthy (pEnabled body) in
      Ok (Monitor.mk (Monitor.id m) name url intervalMs (Monitor.history m)
            (Monitor.lastStatus m) (Monitor.lastLatency m)
            (Monitor.lastChecked m) enabled (Monitor.retryCount m)
            (Monitor.lastError m) (Monitor.consecutiveFailures m)
            (Monitor.forceCheck m))
  end.

(** [interval >= 2000] for a stored interval. *)
Definition intervalAtLeastFloor (m : monitor) : Prop :=
  numGe (Monitor.intervalMs m) (inject_Z INTERVAL_FLOOR) = true.

(** [Array.isArray(m.history) ? m.history.slice(-200) : []] of the loaders. *)
Definition loadHistory (raw : option (list point)) : list point :=
  match raw with
  | Some h => sliceLast HISTORY_CAP h
  | None => []
  end.

(** ** The event loop

    [checkOnce] is asynchronous: it runs up to its first [await], and each
    time the pending request settles it runs one pass of the loop body.
    Between two such passes any other callback can run. An in-flight check
    is a task: the monitor it was started on, its arguments, and the attempt
    numbers still ahead (the head is the one being awaited; the retry delay
    is part of that wait). The monitors form a fixed registry here; the
    order in which a sweep issues its requests is not observable. Time is
    not part of the state: callbacks can arrive in any order, and
    [probeWorstCaseMs] tells how long a check can stay in flight. *)

Record Task : Type := mkTask {
  taskMonitor : string;
  taskForced : bool;
  taskStarted : Z;
  taskPending : list nat
}.

Record State : Type := mkState {
  monitors : gmap string monitor;
  timers : gset string;
  inflight : list Task;
  alertLog : list alert
}.

(** The call [checkOnce(m, isForced)] up to its first [await]; [key] is
    where the object [m] sits in [state.monitors]. *)
Definition startCheck (key : string) (m : monitor) (isForced : bool) (now : Z)
    (st : State) : State :=
  if negb (Monitor.enabled m) && negb isForced then st
  else
    mkState (monitors st) (timers st)
      (inflight st ++ [mkTask key isForced now (seq 1 MAX_RETRIES)])
      (alertLog st).

Definition stopTimer (id : string) (st : State) : State :=
  mkState (monitors st) (timers st ∖ {[id]}) (inflight st) (alertLog st).

Definition startTimer (id : string) (now : Z) (st : State) : State :=
  let st1 := stopTimer id st in
  match monitors st1 !! id with
  | None => st1
  | Some m =>
      if negb (Monitor.enabled m) then st1
      else
        let st2 := startCheck id m false now st1 in
        mkState (monitors st2) (timers st2 ∪ {[id]}) (inflight st2) (alertLog st2)
  end.

(** The callback [() => checkOnce(m)] of the interval armed for [id]. *)
Definition timerTick (id : string) (now : Z) (st : State) : State :=
  if decide (id ∈ timers st) then
    match monitors st !! id with
    | Some m => startCheck id m false now st
    | None => st
    end
  else st.

Definition forceCheck (id : string) (now : Z) (st : State) : State :=
  match monitors st !! id with
  | None => st
  | Some m => startCheck id m true now st
  end.

Definition isDownEnabled (m : monitor) : bool :=
  Monitor.enabled m && statusIsDown (Monitor.lastStatus m).

(** [Array.from(state.monitors.values()).filter(...)], each monitor with the
    key it is stored under. *)
Definition downMonitors (st : State) : list (string * monitor) :=
  List.filter (fun km => isDownEnabled km.2) (map_to_list (monitors st)).

Definition forceCheckAllDown (now : Z) (st : State) : State :=
  foldl (fun s km => startCheck km.1 km.2 true now s) st (downMonitors st).

(** The callback of the 30 s interval. *)
Definition sweepTick (now : Z) (st : State) : State :=
  foldl (fun s km => forceCheck (Monitor.id km.2) now s) st (downMonitors st).

(** The pending request of the [n]-th in-flight check settles with [a]. *)
Definition settle (n : nat) (a : Attempt) (st : State) : State :=
  match inflight st !! n with
  | None => st
  | Some tk =>
      match taskPending tk, monitors st !! taskMonitor tk with
      | attempt :: rest, Some m =>
          let '(m', al, brk) :=
            attemptStep m (taskForced tk) (taskStarted tk) attempt a in
          let tasks :=
            if brk || bool_decide (rest = []) then delete n (inflight st)
            else <[n := mkTask (taskMonitor tk) (taskForced tk) (taskStarted tk) rest]>
                   (inflight st) in
          mkState (<[taskMonitor tk := m']> (monitors st)) (timers st) tasks
            (alertLog st ++ al)
      | _, _ => st
      end
  end.

Inductive Event : Type :=
  | EvTick (id : string) (now : Z)
  | EvSweep (now : Z)
  | EvForceCheck (id : string) (now : Z)
  | EvForceCheckAllDown (now : Z)
  | EvSettle (n : nat) (a : Attempt).

Definition step (st : State) (ev : Event) : State :=
  match ev with
  | EvTick id now => timerTick id now st
  | EvSweep now => sweepTick now st
  | EvForceCheck id now => forceCheck id now st
  | EvForceCheckAllDown now => forceCheckAllDown now st
  | EvSettle n a => settle n a st
  end.

Definition run (st : State) (evs : list Event) : State := foldl step st evs.

Definition isSettle (ev : Event) : bool :=
  match ev with
  | EvSettle _ _ => true
  | _ => false
  end.

(** The checks of monitor [id] that are in flight. *)
Definition inflightOf (id : string) (st : State) : list Task :=
  List.filter (fun tk => String.eqb (taskMonitor tk) id) (inflight st).

(** Every monitor is stored under its own [id]. *)
Definition wellKeyed (st : State) : Prop :=
  forall k m, monitors st !! k = Some m -> Monitor.id m = k.

(** The effect of pushing a recorded point, read off the point alone. *)
Definition applyPoint (m : monitor) (p : point) : monitor :=
  recordCheck m (Point.status p) (Point.ms p) (Point.t p) (Point.error p)
    (match Point.error p with
     | Some _ => orZero (Monitor.retryCount m) + 1
     | None => 0
     end)
    (if Point.up p then 0 else orZero (Monitor.consecutiveFailures m) + 1)
    p.

(** A point whose [up] flag is the classification of its status. *)
Definition pointClassified (p : point) : Prop :=
  Point.up p = isUpStatus (Point.status p).

(** ** Auxiliary notions used in the statements *)

(** A non-terminal recorded point: a down response. *)
Definition isRetriedPoint (f : bool) (p : point) : Prop :=
  Point.up p = false /\ Point.error p = None /\ Point.forced p = f.

Ltac split_last :=
  lazymatch goal with
  | |- exists downs lastp, [?a] = _ /\ _ => exists [], a
  | |- exists downs lastp, [?a; ?b] = _ /\ _ => exists [a], b
  | |- exists downs lastp, [?a; ?b; ?c] = _ /\ _ => exists [a; b], c
  end.



Definition noTaskOf (k : string) (tasks : list Task) : Prop :=
  Forall (fun tk => taskMonitor tk <> k) tasks.

(** The attempts a probe goes through before its loop ends. *)
Fixpoint attemptsRun (net : nat -> Attempt) (attempts : list nat) : list nat :=
  match attempts with
  | [] => []
  | att :: rest =>
      att :: (if attemptBreaks att (net att) then [] else attemptsRun net rest)
  end.

(** The settlements of the first in-flight check, fed from [net]. *)
Definition settleEvents (net : nat -> Attempt) (attempts : list nat) : list Event :=
  map (fun att => EvSettle 0 (net att)) (attemptsRun net attempts).

(** The settlements of the checks a sweep started, each check run to its end
    before the next one settles; [nets k] is what the probe of [k] meets. *)
Definition settleAll (nets : string -> nat -> Attempt)
    (l : list (string * monitor)) : list Event :=
  concat (map (fun km => settleEvents (nets km.1) (seq 1 MAX_RETRIES)) l).

Definition forcedTask (now : Z) (km : string * monitor) : Task :=
  mkTask km.1 true now (seq 1 MAX_RETRIES).

Definition forcedResult (nets : string -> nat -> Attempt) (now : Z)
    (ms : gmap string monitor) (km : string * monitor) : gmap string monitor :=
  <[km.1 := (checkOnce (nets km.1) now km.2 true).1]> ms.

Definition replyKind {A : Type} (r : reply A) : nat :=
  match r with
  | Ok _ => 0
  | BadRequest => 1
  | NotFound => 2
  | Threw => 3
  end.

(** The cap on a monitor's history. *)
Definition historyCapped (m : monitor) : Prop :=
  (length (Monitor.history m) <= HISTORY_CAP)%nat.

(** ** Concrete requests, monitors and environments *)

(** The string primitives on ASCII text: blanks are the six ASCII blanks, a
    number is a run of decimal digits. *)
Fixpoint trimLeft (s : string) : string :=
  match s with
  | String c s' => if Ascii.is_space c then trimLeft s' else s
  | EmptyString => EmptyString
  end.

Definition asciiTrim (s : string) : string :=
  String.rev (trimLeft (String.rev (trimLeft s))).

Definition asciiLower (c : Strings.Ascii.ascii) : Strings.Ascii.ascii :=
  let n := Strings.Ascii.nat_of_ascii c in
  if ((65 <=? n) && (n <=? 90))%nat then Strings.Ascii.ascii_of_nat (n + 32) else c.

Fixpoint lowerString (s : string) : string :=
  match s with
  | String c s' => String (asciiLower c) (lowerString s')
  | EmptyString => EmptyString
  end.

Definition asciiHasHttpScheme (s : string) : bool :=
  String.prefix "http://" (lowerString s) || String.prefix "https://" (lowerString s).

Fixpoint digitsValue (acc : Z) (s : string) : option Z :=
  match s with
  | EmptyString => Some acc
  | String c s' =>
      match Ascii.is_nat c with
      | Some d => digitsValue (10 * acc + Z.of_nat d) s'
      | None => None
      end
  end.

Definition decimalToNumber (s : string) : jsnum :=
  match digitsValue 0 (asciiTrim s) with
  | Some z => Fin (inject_Z z)
  | None => NaN
  end.

Definition asciiOps : StringOps :=
  mkStringOps asciiTrim asciiHasHttpScheme decimalToNumber.

Definition bodyInterval (v : jsval) : CreateBody :=
  mkCreateBody JUndefined (JStr "example.com") v.

Definition patchIntervalOnly (v : jsval) : PatchBody :=
  mkPatchBody JUndefined JUndefined v JUndefined.

(** A fresh monitor, as create stores it, and variants of it. *)
Definition mon1 : monitor :=
  newMonitor "m1" None "http://example.com" (Fin 2000).

Definition mon5000 : monitor :=
  newMonitor "m1" None "http://example.com" (Fin 5000).

Definition withStatus (id : string) (ls : option Z) (checked : option Z)
    (enabled : bool) : monitor :=
  Monitor.mk id None "http://example.com" (Fin 5000) [] ls None checked
    enabled 0 None 0 false.

Definition monUp : monitor := withStatus "m1" (Some 200) (Some 1000) true.
Definition monOff : monitor := withStatus "m1" (Some 200) (Some 1000) false.

Definition oldPoint (t : Z) : point := Point.mk t true 200 10 1 false None.

(** A monitor whose history is full: 200 points, stamped 1 to 200. *)
Definition monFull : monitor :=
  Monitor.mk "m1" None "http://example.com" (Fin 5000)
    (map (fun n => oldPoint (Z.of_nat n)) (seq 1 200))
    (Some 200) (Some 10) (Some 200) true 0 None 0 false.

(** Environments: the target never answers; always answers 500; answers 500
    and then 200; answers 500 once and then never again. *)
Definition netFail : nat -> Attempt :=
  fun _ => mkAttempt (TransportError "timeout of 2000ms exceeded") 9000 9000 9000.

Definition net500 : nat -> Attempt :=
  fun _ => mkAttempt (Response 500) 1500 1500 1500.



Definition check500 : Check := mkCheck net500 0 false.

(** The event loop after [startTimer] on a fresh monitor with the 2000 ms
    interval, once the first attempt has been answered with 500 after
    1500 ms: the check waits its retry delay when the 2000 ms tick fires. *)
Definition stFresh : State := mkState {[ "m1" := mon1 ]} ∅ [] [].

Definition stBusy : State :=
  run (startTimer "m1" 0 stFresh) [EvSettle 0 (net500 1%nat)].

Definition monBusy : monitor :=
  (attemptStep mon1 false 0 1 (net500 1%nat)).1.1.

(** Two down monitors and one up monitor, all enabled, nothing in flight. *)
Definition monDown1 : monitor := withStatus "d1" (Some 500) (Some 1000) true.
Definition monDown2 : monitor := withStatus "d2" (Some 0) (Some 1000) true.
Definition monUp3 : monitor := withStatus "u3" (Some 200) (Some 1000) true.

Definition stThree : State :=
  mkState (<["d1" := monDown1]> (<["d2" := monDown2]> {[ "u3" := monUp3 ]}))
    ∅ [] [].

(** ** Health status *)

(** The strings ['unknown'], ['healthy'], ['critical'], ['unhealthy']. *)
Inductive health : Type :=
  | unknown
  | healthy
  | critical
  | unhealthy.

(** [getHealthStatus]; [!monitor.lastChecked] holds for [null] and for 0. *)
Definition getHealthStatus (m : monitor) : health :=
  match Monitor.lastChecked m with
  | None => unknown
  | Some t =>
      if t =? 0 then unknown
      else if statusIsUp (Monitor.lastStatus m) then healthy
      else if 2 <? Monitor.consecutiveFailures m then critical
      else unhealthy
  end.

(** ** Persisted records: [saveMonitors] and [loadMonitors] *)

(** A monitor as it sits in the store: the fields [saveMonitors] writes,
    each possibly missing or [null] ([None]); [intervalMs] is whatever JSON
    value the store holds. *)
Record RawMonitor : Type := mkRaw {
  rawId : option string;
  rawName : option string;
  rawUrl : option string;
  rawIntervalMs : jsval;
  rawHistory : option (list point);
  rawLastStatus : option Z;
  rawLastLatency : option Z;
  rawLastChecked : option Z;
  rawEnabled : option bool;
  rawRetryCount : option Z;
  rawLastError : option string;
  rawConsecutiveFailures : option Z
}.

(** [s || null] on a string or [null]. *)
Definition orNull (s : option string) : option string :=
  match s with
  | Some t => if String.eqb t "" then None else Some t
  | None => None
  end.

(** [x || 0] on a number or [null]. *)
Definition optOrZero (z : option Z) : Z :=
  match z with
  | Some x => orZero x
  | None => 0
  end.

(** [n > c] against a finite constant. *)
Definition numGt (n : jsnum) (c : Q) : bool :=
  match n with
  | Fin q => negb (Qle_bool q c)
  | PInf => true
  | NaN | NInf => false
  end.

(** [Number(m.intervalMs) > 1000 ? Number(m.intervalMs) : DEFAULT_INTERVAL_MS]. *)
Definition loadInterval (ops : StringOps) (v : jsval) : jsnum :=
  let n := toNumber ops v in
  if numGt n 1000 then n else Fin (inject_Z DEFAULT_INTERVAL_MS).

(** The body of the [forEach] of [loadMonitors]: the monitor built from a
    stored record, [None] when the guard [m && m.url] fails. [fresh] is the
    identifier [nanoid] would hand out. *)
Definition loadMonitor (ops : StringOps) (fresh : string) (r : RawMonitor)
    : option monitor :=
  match rawUrl r with
  | Some u =>
      if String.eqb u "" then None
      else
        Some (Monitor.mk
                (match rawId r with
                 | Some i => if String.eqb i "" then fresh else i
                 | None => fresh
                 end)
                (orNull (rawName r)) u
                (loadInterval ops (rawIntervalMs r))
                (loadHistory (rawHistory r))
                (rawLastStatus r) (rawLastLatency r) (rawLastChecked r)
                (match rawEnabled r with Some b => b | None => true end)
                (optOrZero (rawRetryCount r))
                (orNull (rawLastError r))
                (optOrZero (rawConsecutiveFailures r))
                false)
  | None => None
  end.

(** [Object.values(data).forEach(...)]: entries in order, a later entry
    replacing an earlier one with the same id; a [null] entry is [None]. *)
Definition loadEntry (ops : StringOps) (fresh : nat -> string)
    (ms : gmap string monitor) (ir : nat * option RawMonitor)
    : gmap string monitor :=
  match ir.2 ≫= loadMonitor ops (fresh ir.1) with
  | Some m => <[Monitor.id m := m]> ms
  | None => ms
  end.

Definition loadEntries (ops : StringOps) (fresh : nat -> string)
    (data : list (option RawMonitor)) (ms : gmap string monitor)
    : gmap string monitor :=
  foldl (loadEntry ops fresh) ms (imap pair data).



(** [JSON.stringify] of a number: what is not finite becomes [null]. *)
Definition jsonNumber (n : jsnum) : jsval :=
  match n with
  | Fin q => JNum (Fin q)
  | NaN | PInf | NInf => JNull
  end.

(** The record [saveMonitors] writes for a monitor. *)
Definition toRaw (m : monitor) : RawMonitor :=
  mkRaw (Some (Monitor.id m)) (Monitor.name m) (Some (Monitor.url m))
    (jsonNumber (Monitor.intervalMs m))
    (Some (sliceLast HISTORY_CAP (Monitor.history m)))
    (Monitor.lastStatus m) (Monitor.lastLatency m) (Monitor.lastChecked m)
    (Some (Monitor.enabled m)) (Some (Monitor.retryCount m))
    (Monitor.lastError m) (Some (Monitor.consecutiveFailures m)).

(** [monitorsObj] of [saveMonitors]: one record per entry of the registry. *)
Definition saveMonitors (ms : gmap string monitor) : gmap string RawMonitor :=
  toRaw <$> ms.

(** What survives a save followed by a load unchanged. *)
Definition persistable (m : monitor) : Prop :=
  Monitor.id m <> ""%string
  /\ Monitor.url m <> ""%string
  /\ Monitor.name m <> Some ""%string
  /\ Monitor.lastError m <> Some ""%string
  /\ (exists q, Monitor.intervalMs m = Fin q /\ Qle_bool q 1000 = false)
  /\ (length (Monitor.history m) <= HISTORY_CAP)%nat
  /\ Monitor.forceCheck m = false.

(** ** Request handling on the registry *)

Definition setMonitor (id : string) (m : monitor) (st : State) : State :=
  mkState (<[id := m]> (monitors st)) (timers st) (inflight st) (alertLog st).

(** [app.post('/api/monitors')], with nothing else running while the
    handler awaits [saveMonitors]: store, then [startTimer(id)]. *)
Definition createHandler (ops : StringOps) (id : string) (body : CreateBody)
    (now : Z) (st : State) : reply monitor * State :=
  match createMonitor ops id body with
  | Ok m => (Ok m, startTimer id now (setMonitor id m st))
  | BadRequest => (BadRequest, st)
  | NotFound => (NotFound, st)
  | Threw => (Threw, st)
  end.




(** [app.patch('/api/monitors/:id')], with nothing else running while the
    handler awaits [saveMonitors]: update in place, then
    [if (m.enabled) startTimer(m.id); else stopTimer(m.id)]. *)
Definition patchHandler (ops : StringOps) (id : string) (body : PatchBody)
    (now : Z) (st : State) : reply monitor * State :=
  match monitors st !! id with
  | None => (NotFound, st)
  | Some m =>
      match patchMonitor ops m body with
      | Ok m' =>
          let st1 := setMonitor id m' st in
          (Ok m',
           if Monitor.enabled m' then startTimer (Monitor.id m') now st1
           else stopTimer (Monitor.id m') st1)
      | BadRequest => (BadRequest, st)
      | NotFound => (NotFound, st)
      | Threw => (Threw, st)
      end
  end.





(** [forceCheck(id)] as the route sees it: the boolean it returns. *)
Definition forceCheckFound (id : string) (st : State) : bool :=
  bool_decide (is_Some (monitors st !! id)).

(** What [forceCheckAllDown] returns: [downMonitors.length]. *)
Definition forceCheckAllDownCount (st : State) : nat :=
  length (downMonitors st).

(** The unforced checks of monitor [id] that are in flight. *)
Definition unforcedOf (id : string) (st : State) : list Task :=
  List.filter (fun tk => String.eqb (taskMonitor tk) id && negb (taskForced tk))
    (inflight st).

(** The fields of a monitor that no check writes. *)
Definition configOf (m : monitor) : string * option string * string * jsnum * bool * bool :=
  (Monitor.id m, Monitor.name m, Monitor.url m, Monitor.intervalMs m,
   Monitor.enabled m, Monitor.forceCheck m).

(** An alert that reports the recorded point [p] of monitor [m]. *)
Definition alertReports (m : monitor) (a : alert) (p : point) : Prop :=
  Alert.monitorId a = Monitor.id m
  /\ Alert.monitorName a = nameOrUrl m
  /\ Alert.url a = Monitor.url m
  /\ Alert.status a = Some (Point.status p)
  /\ Alert.latency a = Some (Point.ms p)
  /\ Alert.error a = Point.error p
  /\ Alert.nowUp a = Point.up p.

(** The summary fields of a monitor are those of its newest history point. *)
Definition mirrorsNewest (m : monitor) : Prop :=
  forall p, last (Monitor.history m) = Some p ->
    Monitor.lastStatus m = Some (Point.status p)
    /\ Monitor.lastLatency m = Some (Point.ms p)
    /\ Monitor.lastChecked m = Some (Point.t p)
    /\ Monitor.lastError m = Point.error p.



(** The task of the immediate check [startTimer] runs. *)
Definition scheduledTask (now : Z) (id : string) : Task :=
  mkTask id false now (seq 1 MAX_RETRIES).


(** ** Views: one monitor, recent events, statistics *)

(** [ToIntegerOrInfinity] on a finite number: truncation towards zero. *)
Definition Qtrunc (q : Q) : Z := Z.quot (Qnum q) (Zpos (Qden q)).

(** [arr.slice(start)] for an integer [start]. *)
Definition sliceFrom {A : Type} (start : Z) (l : list A) : list A :=
  if start <? 0 then drop (Z.to_nat (Z.max (Z.of_nat (length l) + start) 0)) l
  else drop (Z.to_nat start) l.

(** [arr.slice(start)] for a number. *)
Definition sliceFromNum {A : Type} (start : jsnum) (l : list A) : list A :=
  match start with
  | Fin q => sliceFrom (Qtrunc q) l
  | NaN | NInf => l
  | PInf => []
  end.

(** [arr.slice(0, end)] for a number. *)
Definition sliceToNum {A : Type} (stop : jsnum) (l : list A) : list A :=
  match stop with
  | Fin q =>
      let k := Qtrunc q in
      if k <? 0 then take (Z.to_nat (Z.max (Z.of_nat (length l) + k) 0)) l
      else take (Z.to_nat k) l
  | NaN | NInf => []
  | PInf => l
  end.

(** Unary minus. *)
Definition numNeg (n : jsnum) : jsnum :=
  match n with
  | Fin q => Fin (- q)
  | NaN => NaN
  | PInf => NInf
  | NInf => PInf
  end.

(** [Math.min(c, n)] for a finite constant [c]. *)
Definition numMin (c : Q) (n : jsnum) : jsnum :=
  match n with
  | Fin q => Fin (if Qle_bool c q then c else q)
  | NaN => NaN
  | PInf => Fin c
  | NInf => NInf
  end.

(** [Math.min(cap, Number(req.query.limit) || dflt)]. *)
Definition queryLimit (ops : StringOps) (cap dflt : Q) (v : jsval) : jsnum :=
  let n := toNumber ops v in
  numMin cap (if numTruthy n then n else Fin dflt).

(** [app.get('/api/monitors/:id')]: the history and the health that the
    answer adds to the monitor's own fields. *)
Definition monitorHistoryView (ops : StringOps) (limit : jsval) (m : monitor)
    : list point :=
  sliceFromNum (numNeg (queryLimit ops 200 100 limit)) (Monitor.history m).

Definition getMonitor (ops : StringOps) (limit : jsval) (id : string)
    (st : State) : reply (monitor * health * list point) :=
  match monitors st !! id with
  | None => NotFound
  | Some m => Ok (m, getHealthStatus m, monitorHistoryView ops limit m)
  end.

Record EventView : Type := mkEventView {
  evMonitorId : string;
  evMonitorName : string;
  evTimestamp : Z;
  evStatus : Z;
  evUp : bool;
  evLatency : Z;
  evAttempt : nat;
  evForced : bool;
  evError : option string
}.

(** [h.forced || h.attempt > 1 || h.error]. *)
Definition isNotable (h : point) : bool :=
  Point.forced h
  || (1 <? Point.attempt h)%nat
  || match Point.error h with
     | Some s => negb (String.eqb s "")
     | None => false
     end.

Definition toEvent (m : monitor) (h : point) : EventView :=
  mkEventView (Monitor.id m) (nameOrUrl m) (Point.t h) (Point.status h)
    (Point.up h) (Point.ms h) (Point.attempt h) (Point.forced h) (Point.error h).

(** [monitor.history.filter(...).slice(-10).map(...)]. *)
Definition monitorEvents (m : monitor) : list EventView :=
  map (toEvent m) (sliceLast 10 (List.filter isNotable (Monitor.history m))).

(** [allEvents.sort((a, b) => b.timestamp - a.timestamp)]: the stable sort
    by decreasing timestamp, as an insertion sort. *)
Fixpoint insertDesc (e : EventView) (l : list EventView) : list EventView :=
  match l with
  | [] => [e]
  | y :: l' =>
      if evTimestamp y <=? evTimestamp e then e :: l else y :: insertDesc e l'
  end.

Definition sortDesc (l : list EventView) : list EventView :=
  foldr insertDesc [] l.

(** [app.get('/api/events')] over [state.monitors.values()]. *)
Definition recentEvents (ops : StringOps) (limit : jsval) (ms : list monitor)
    : list EventView :=
  sliceToNum (queryLimit ops 100 50 limit)
    (sortDesc (concat (map monitorEvents ms))).

Record Stats : Type := mkStats {
  sTotal : Z;
  sUp : Z;
  sDown : Z;
  sEnabled : Z;
  sDisabled : Z;
  sCritical : Z;
  sOverallUptime : float
}.

Definition countIf (P : monitor -> bool) (ms : list monitor) : Z :=
  Z.of_nat (length (List.filter P ms)).

Definition isCritical (m : monitor) : bool :=
  match getHealthStatus m with
  | critical => true
  | _ => false
  end.

(** [app.get('/api/stats')] over [state.monitors.values()]. *)
Definition getStats (ms : list monitor) : Stats :=
  let total := Z.of_nat (length ms) in
  let up := countIf (fun m => statusIsUp (Monitor.lastStatus m)) ms in
  let enabled := countIf Monitor.enabled ms in
  let totalUptime :=
    PrimFloat.div
      (foldl (fun sum m => PrimFloat.add sum (uptimeFromHistory (Monitor.history m)))
         0%float ms)
      (floatOfNat (length ms)) in
  mkStats total up (total - up) enabled (total - enabled)
    (countIf isCritical ms)
    (PrimFloat.div (mathRound (PrimFloat.mul totalUptime 10%float)) 10%float).

(** Sorted by decreasing timestamp. *)
Fixpoint newestFirst (l : list EventView) : Prop :=
  match l with
  | [] => True
  | e :: rest =>
      Forall (fun later => evTimestamp later <= evTimestamp e) rest
      /\ newestFirst rest
  end.


(** ** Further concrete inputs *)

(** The alert of the check that finds [monUp] unreachable. *)
Definition downAlert : alert :=
  Alert.mk "m1" "http://example.com" "http://example.com" 9000 true false
    (Some "timeout of 2000ms exceeded") (Some 0) (Some 9000).

(** A monitor after one check answered 500 three times, and the registry
    holding it. *)
Definition monChecked : monitor := (checkOnce net500 0 mon5000 false).1.

Definition regChecked : gmap string monitor := {[ "m1" := monChecked ]}.

(** [mon1] after a patch of its interval to 3000 ms. *)
Definition monPatched : monitor :=
  Monitor.mk "m1" None "http://example.com" (Fin 3000) [] None None None true
    0 None 0 false.
(** * Properties *)

(** ** One attempt and one probe, through their points *)

Lemma orZero_id x : orZero x = x.
Proof. unfold orZero. destruct (Z.eqb_spec x 0); congruence. Qed.

Lemma attemptPoint_classified f s att a p :
  attemptPoint f s att a = Some p -> pointClassified p.
Proof.
  unfold attemptPoint, pointClassified.
  destruct (result a); [|destruct (att =? MAX_RETRIES)%nat];
    intros [= <-]; reflexivity.
Qed.

Lemma attemptStep_monitor m f s att a :
  (attemptStep m f s att a).1.1 =
    match attemptPoint f s att a with
    | Some p => applyPoint m p
    | None => m
    end.
Proof.
  unfold attemptStep, attemptPoint.
  destruct (result a) as [status|message]; cbn.
  - unfold applyPoint; cbn. destruct (isUpStatus status); reflexivity.
  - unfold onError. destruct (att =? MAX_RETRIES)%nat; reflexivity.
Qed.

Lemma attemptStep_breaks m f s att a :
  (attemptStep m f s att a).2 = attemptBreaks att a.
Proof. unfold attemptStep, attemptBreaks. destruct (result a); reflexivity. Qed.

Lemma attemptStep_alerts m f s att a :
  map alertFlip (attemptStep m f s att a).1.2 =
    transitions (statusIsUp (Monitor.lastStatus m))
      (map Point.up (option_list (attemptPoint f s att a))).
Proof.
  unfold attemptStep, attemptPoint.
  destruct (result a) as [status|message]; cbn.
  - destruct (Bool.eqb _ _); reflexivity.
  - unfold onError. destruct (att =? MAX_RETRIES)%nat; cbn; [|reflexivity].
    destruct (statusIsUp _); reflexivity.
Qed.

Lemma applyPoint_statusIsUp m p :
  pointClassified p ->
  statusIsUp (Monitor.lastStatus (applyPoint m p)) = Point.up p.
Proof. intros Hp. cbn. symmetry. exact Hp. Qed.

Lemma last_cons_default {A : Type} (x : A) (l : list A) (d d' : A) :
  List.last (x :: l) d = List.last (x :: l) d'.
Proof.
  revert x. induction l as [|y l IH]; intros x; [reflexivity|].
  change (List.last (y :: l) d = List.last (y :: l) d'). apply IH.
Qed.

Lemma transitions_app prev l1 l2 :
  transitions prev (l1 ++ l2) =
    transitions prev l1 ++ transitions (List.last l1 prev) l2.
Proof.
  revert prev. induction l1 as [|b l1 IH]; intros prev; [reflexivity|].
  cbn [transitions app]. rewrite IH, <- app_assoc. do 2 f_equal.
  destruct l1 as [|c l1]; [reflexivity|].
  change (List.last (b :: c :: l1) prev) with (List.last (c :: l1) prev).
  f_equal. apply last_cons_default.
Qed.

Lemma probePoints_classified net f s attempts :
  Forall pointClassified (probePoints net f s attempts).
Proof.
  induction attempts as [|att rest IH]; cbn; [constructor|].
  assert (Forall pointClassified
            (option_list (attemptPoint f s att (net att)))) as Hps.
  { destruct (attemptPoint f s att (net att)) eqn:E; cbn; [|constructor].
    constructor; [|constructor]. eapply attemptPoint_classified, E. }
  destruct (attemptBreaks att (net att)); [exact Hps|].
  apply Forall_app; split; assumption.
Qed.

(** The classification a monitor ends with after pushing [ps]. *)
Lemma foldl_applyPoint_statusIsUp ps m :
  Forall pointClassified ps ->
  statusIsUp (Monitor.lastStatus (foldl applyPoint m ps)) =
    List.last (map Point.up ps) (statusIsUp (Monitor.lastStatus m)).
Proof.
  revert m. induction ps as [|p ps IH]; intros m Hps; [reflexivity|].
  inversion Hps as [|? ? Hp Hps']; subst.
  cbn [foldl]. rewrite IH by assumption.
  rewrite applyPoint_statusIsUp by assumption.
  destruct ps as [|q ps]; [reflexivity|]. cbn [map].
  change (List.last (Point.up p :: Point.up q :: map Point.up ps)
            (statusIsUp (Monitor.lastStatus m)))
    with (List.last (Point.up q :: map Point.up ps)
            (statusIsUp (Monitor.lastStatus m))).
  apply last_cons_default.
Qed.

(** [retryLoop] pushes exactly the points of [probePoints], and its alerts
    are the flips along them. *)
Lemma retryLoop_view net f s attempts m :
  (retryLoop net f s attempts m).1 =
    foldl applyPoint m (probePoints net f s attempts)
  /\ map alertFlip (retryLoop net f s attempts m).2 =
       transitions (statusIsUp (Monitor.lastStatus m))
         (map Point.up (probePoints net f s attempts)).
Proof.
  revert m. induction attempts as [|att rest IH]; intros m; [split; reflexivity|].
  cbn [retryLoop probePoints].
  pose proof (attemptStep_monitor m f s att (net att)) as Hm.
  pose proof (attemptStep_breaks m f s att (net att)) as Hb.
  pose proof (attemptStep_alerts m f s att (net att)) as Ha.
  destruct (attemptStep m f s att (net att)) as [[m' al] brk].
  cbn in Hm, Hb, Ha. subst brk.
  assert (m' = foldl applyPoint m
                 (option_list (attemptPoint f s att (net att)))) as Hm'.
  { rewrite Hm. destruct (attemptPoint f s att (net att)); reflexivity. }
  destruct (attemptBreaks att (net att)).
  - split; [exact Hm' | exact Ha].
  - destruct (IH m') as [IH1 IH2].
    destruct (retryLoop net f s rest m') as [m'' al'].
    cbn in IH1, IH2 |- *. split.
    + rewrite foldl_app, <- Hm'. exact IH1.
    + rewrite map_app, map_app, transitions_app, Ha, IH2. f_equal. f_equal.
      rewrite Hm'.
      destruct (attemptPoint f s att (net att)) as [p|] eqn:E; cbn; [|reflexivity].
      symmetry. eapply attemptPoint_classified, E.
Qed.

Lemma checkOnce_view net s m f :
  (checkOnce net s m f).1 = foldl applyPoint m (checkPoints net s m f)
  /\ map alertFlip (checkOnce net s m f).2 =
       transitions (statusIsUp (Monitor.lastStatus m))
         (map Point.up (checkPoints net s m f)).
Proof.
  unfold checkOnce, checkPoints.
  destruct (negb (Monitor.enabled m) && negb f); [split; reflexivity|].
  apply retryLoop_view.
Qed.

(** ** The capped history *)

Lemma sliceLast_length {A : Type} (n : nat) (l : list A) :
  length (sliceLast n l) = Nat.min n (length l).
Proof. unfold sliceLast. rewrite length_drop. lia. Qed.

Lemma sliceLast_short {A : Type} (n : nat) (l : list A) :
  (length l <= n)%nat -> sliceLast n l = l.
Proof.
  intros H. unfold sliceLast.
  replace (length l - n)%nat with 0%nat by lia. reflexivity.
Qed.

Lemma sliceLast_app {A : Type} (n : nat) (l l' : list A) :
  sliceLast n (sliceLast n l ++ l') = sliceLast n (l ++ l').
Proof.
  destruct (Nat.le_gt_cases (length l) n) as [Hle|Hgt].
  - rewrite (sliceLast_short n l) by assumption. reflexivity.
  - unfold sliceLast at 1 3. rewrite !length_app, sliceLast_length.
    replace (Nat.min n (length l) + length l' - n)%nat with (length l') by lia.
    replace (length l + length l' - n)%nat
      with ((length l - n) + length l')%nat by lia.
    rewrite <- drop_drop. rewrite (drop_app_le l l' (length l - n)) by lia. reflexivity.
Qed.

Lemma pushShift_sliceLast (h : list point) (p : point) :
  (length h <= HISTORY_CAP)%nat ->
  pushShift h p = sliceLast HISTORY_CAP (h ++ [p]).
Proof.
  intros Hh. unfold pushShift, sliceLast.
  rewrite length_app. cbn [length].
  destruct (Nat.ltb_spec HISTORY_CAP (length h + 1)) as [Hlt|Hge].
  - replace (length h + 1 - HISTORY_CAP)%nat with 1%nat by lia.
    destruct (h ++ [p]); reflexivity.
  - replace (length h + 1 - HISTORY_CAP)%nat with 0%nat by lia. reflexivity.
Qed.

Lemma pushShift_last (h : list point) (p : point) :
  last (pushShift h p) = Some p.
Proof.
  unfold pushShift.
  destruct (Nat.ltb_spec HISTORY_CAP (length (h ++ [p]))) as [Hlt|Hge];
    [|apply last_snoc].
  destruct h as [|q h]; [cbn in Hlt; unfold HISTORY_CAP in Hlt; lia|].
  cbn [app tail]. apply last_snoc.
Qed.

Lemma foldl_pushShift (ps : list point) (h : list point) :
  (length h <= HISTORY_CAP)%nat ->
  foldl pushShift h ps = sliceLast HISTORY_CAP (h ++ ps).
Proof.
  revert h. induction ps as [|p ps IH]; intros h Hh; cbn [foldl].
  - rewrite app_nil_r, sliceLast_short by assumption. reflexivity.
  - rewrite IH.
    + rewrite pushShift_sliceLast by assumption.
      rewrite sliceLast_app, <- app_assoc. reflexivity.
    + rewrite pushShift_sliceLast by assumption.
      rewrite sliceLast_length. lia.
Qed.

Lemma foldl_applyPoint_history (ps : list point) (m : monitor) :
  Monitor.history (foldl applyPoint m ps) = foldl pushShift (Monitor.history m) ps.
Proof.
  revert m. induction ps as [|p ps IH]; intros m; [reflexivity|].
  cbn [foldl]. rewrite IH. reflexivity.
Qed.

Lemma foldl_applyPoint_enabled (ps : list point) (m : monitor) :
  Monitor.enabled (foldl applyPoint m ps) = Monitor.enabled m.
Proof.
  revert m. induction ps as [|p ps IH]; intros m; [reflexivity|].
  cbn [foldl]. rewrite IH. reflexivity.
Qed.

Lemma checkOnce_history net s m f :
  (length (Monitor.history m) <= HISTORY_CAP)%nat ->
  Monitor.history (checkOnce net s m f).1 =
    sliceLast HISTORY_CAP (Monitor.history m ++ checkPoints net s m f).
Proof.
  intros Hh. rewrite (proj1 (checkOnce_view net s m f)).
  rewrite foldl_applyPoint_history. apply foldl_pushShift, Hh.
Qed.

Lemma checkOnce_enabled net s m f :
  Monitor.enabled (checkOnce net s m f).1 = Monitor.enabled m.
Proof.
  rewrite (proj1 (checkOnce_view net s m f)). apply foldl_applyPoint_enabled.
Qed.

(** ** The shape of a probe *)

(** A probe records between one and three points: down responses, then the
    terminal result. *)
Lemma probePoints_shape net f s :
  exists downs lastp,
    probePoints net f s (seq 1 MAX_RETRIES) = downs ++ [lastp]
    /\ (length downs <= 2)%nat
    /\ Forall (isRetriedPoint f) downs
    /\ Point.forced lastp = f
    /\ (Point.error lastp <> None -> Point.attempt lastp = MAX_RETRIES
        /\ Point.status lastp = 0 /\ Point.up lastp = false).
Proof.
  unfold MAX_RETRIES. cbn [seq probePoints].
  unfold attemptPoint, attemptBreaks, MAX_RETRIES.
  destruct (result (net 1%nat)) as [s1|e1];
    destruct (result (net 2%nat)) as [s2|e2];
    destruct (result (net 3%nat)) as [s3|e3]; cbn;
    repeat match goal with
      | |- context [isUpStatus ?x] => destruct (isUpStatus x) eqn:?; cbn
      end;
    split_last;
    (split; [reflexivity|]); (split; [cbn; lia|]);
    (split; [repeat constructor; assumption|]);
    (split; [reflexivity|]); cbn; intros H; try congruence; auto.
Qed.

Lemma checkPoints_runs net s m f :
  Monitor.enabled m || f = true ->
  checkPoints net s m f = probePoints net f s (seq 1 MAX_RETRIES).
Proof.
  unfold checkPoints. destruct (Monitor.enabled m), f; cbn; congruence.
Qed.

Lemma runCheck_enabled m c : Monitor.enabled (runCheck m c) = Monitor.enabled m.
Proof. apply checkOnce_enabled. Qed.

(** The history after a sequence of checks of one monitor. *)
Lemma runChecks_history cs m :
  (length (Monitor.history m) <= HISTORY_CAP)%nat ->
  Monitor.history (runChecks cs m) =
    sliceLast HISTORY_CAP
      (Monitor.history m
       ++ concat (map (fun c => checkPoints (checkNet c) (checkStarted c) m (checkForced c)) cs)).
Proof.
  revert m. induction cs as [|c cs IH]; intros m Hm.
  - cbn. rewrite app_nil_r, sliceLast_short by assumption. reflexivity.
  - cbn [runChecks foldl map concat]. fold (runChecks cs (runCheck m c)).
    assert (length (Monitor.history (runCheck m c)) <= HISTORY_CAP)%nat as Hc.
    { unfold runCheck. rewrite checkOnce_history by assumption.
      rewrite sliceLast_length. lia. }
    rewrite IH by assumption.
    unfold runCheck at 1. rewrite checkOnce_history by assumption.
    rewrite sliceLast_app, <- app_assoc. do 4 f_equal.
    apply List.map_ext. intros c'. unfold checkPoints.
    rewrite runCheck_enabled. reflexivity.
Qed.

(** ** Counters along the points of a probe *)



(** A probe that runs, split into its retried points and its terminal
    point. *)
Lemma checkOnce_shape net s m f :
  Monitor.enabled m || f = true ->
  exists downs lastp,
    checkPoints net s m f = downs ++ [lastp]
    /\ (length downs <= 2)%nat
    /\ Forall (isRetriedPoint f) downs
    /\ Point.forced lastp = f
    /\ pointClassified lastp
    /\ (Point.error lastp <> None -> Point.attempt lastp = MAX_RETRIES
        /\ Point.status lastp = 0 /\ Point.up lastp = false)
    /\ (checkOnce net s m f).1 = applyPoint (foldl applyPoint m downs) lastp.
Proof.
  intros Hrun.
  destruct (probePoints_shape net f s) as (downs & lastp & Hps & Hlen & Hd & Hf & He).
  exists downs, lastp.
  rewrite (proj1 (checkOnce_view net s m f)).
  rewrite checkPoints_runs by assumption. rewrite Hps.
  repeat split; try assumption; try (apply He; assumption).
  - pose proof (probePoints_classified net f s (seq 1 MAX_RETRIES)) as Hc.
    rewrite Hps in Hc. apply Forall_app in Hc as [_ Hc].
    inversion Hc; assumption.
  - rewrite foldl_app. reflexivity.
Qed.




(** ** Alerts *)

Lemma transitions_flips prev l :
  Forall (fun wn : bool * bool => wn.1 <> wn.2) (transitions prev l).
Proof.
  revert prev. induction l as [|b l IH]; intros prev; cbn; [constructor|].
  apply Forall_app. split; [|apply IH].
  destruct prev, b; cbn; repeat constructor; discriminate.
Qed.



(** ** Transport failures *)



(** ** The enabled guard *)

Lemma foldl_applyPoint_last ps p m :
  last (Monitor.history (foldl applyPoint m (ps ++ [p]))) = Some p
  /\ Monitor.lastChecked (foldl applyPoint m (ps ++ [p])) = Some (Point.t p)
  /\ Monitor.lastStatus (foldl applyPoint m (ps ++ [p])) = Some (Point.status p).
Proof.
  rewrite foldl_app. cbn [foldl]. split; [apply pushShift_last|].
  split; reflexivity.
Qed.

(** C9. On a disabled monitor an unforced check returns at once: the monitor
    is unchanged and nothing is emitted. A forced check is not stopped by the
    guard: it runs the retry loop as on an enabled monitor and records at
    least one point; the last point of the history is then a point of this
    probe, marked forced, and [lastChecked] and [lastStatus] are taken from
    it. *)
Theorem disabled_guard net s m :
  Monitor.enabled m = false ->
  checkOnce net s m false = (m, [])
  /\ checkOnce net s m true = retryLoop net true s (seq 1 MAX_RETRIES) m
  /\ exists ps p,
       let m' := (checkOnce net s m true).1 in
       checkPoints net s m true = ps ++ [p]
       /\ Forall (fun q => Point.forced q = true) (ps ++ [p])
       /\ last (Monitor.history m') = Some p
       /\ Monitor.lastChecked m' = Some (Point.t p)
       /\ Monitor.lastStatus m' = Some (Point.status p)
       /\ Monitor.enabled m' = false
       /\ ((length (Monitor.history m) <= 200)%nat ->
             Monitor.history m' =
               sliceLast 200 (Monitor.history m ++ ps ++ [p])).
Proof.
  intros Hdis. split; [|split].
  - unfold checkOnce. rewrite Hdis. reflexivity.
  - unfold checkOnce. rewrite Hdis. reflexivity.
  - assert (Monitor.enabled m || true = true) as Hrun by apply orb_true_r.
    destruct (checkOnce_shape net s m true Hrun)
      as (downs & lastp & Hps & _ & Hd & Hf & _ & _ & Hm').
    exists downs, lastp. cbv zeta.
    pose proof (proj1 (checkOnce_view net s m true)) as Hview.
    rewrite Hps in Hview.
    destruct (foldl_applyPoint_last downs lastp m) as (Hl & Hc & Hs).
    rewrite <- Hview in Hl, Hc, Hs.
    split; [exact Hps|]. split.
    { apply Forall_app. split; [|constructor; [exact Hf|constructor]].
      eapply Forall_impl; [exact Hd|]. intros q (_ & _ & Hq). exact Hq. }
    split; [exact Hl|]. split; [exact Hc|]. split; [exact Hs|]. split.
    { rewrite checkOnce_enabled. exact Hdis. }
    intros Hlen. rewrite checkOnce_history by exact Hlen.
    rewrite Hps. reflexivity.
Qed.

(** ** [retryCount] *)





(** ** Uptime percentage *)

Lemma jsRound_ratio (u n : Z) :
  0 < n ->
  jsRound (inject_Z u / inject_Z n * 1000) = (2000 * u + n) / (2 * n).
Proof.
  intros Hn. destruct n as [|p|p]; try lia.
  unfold jsRound, Qfloor, Qdiv, Qmult, Qplus, Qinv, inject_Z. cbn.
  f_equal; lia.
Qed.

Lemma upCount_le (history : list point) :
  (upCount history <= length history)%nat.
Proof. unfold upCount. apply List.filter_length_le. Qed.

Lemma roundsExactly_up_to_cap :
  forallb roundsExactly (seq 1 HISTORY_CAP) = true.
Proof. vm_compute. reflexivity. Qed.

Lemma scaledRatio_rounds (up total : nat) :
  (1 <= total <= HISTORY_CAP)%nat ->
  (up <= total)%nat ->
  roundToZ (scaledRatio up total) = Some (exactTenths up total).
Proof.
  intros Htot Hup.
  pose proof roundsExactly_up_to_cap as Hall.
  rewrite List.forallb_forall in Hall.
  assert (roundsExactly total = true) as Hrow.
  { apply Hall. apply List.in_seq. lia. }
  unfold roundsExactly in Hrow. rewrite List.forallb_forall in Hrow.
  assert (In up (seq 0 (S total))) as Hin by (apply List.in_seq; lia).
  specialize (Hrow up Hin).
  destruct (roundToZ (scaledRatio up total)) as [z|]; [|discriminate].
  apply Z.eqb_eq in Hrow. rewrite Hrow. reflexivity.
Qed.

(** C7. [uptimeFromHistory] is 0 on the empty history. On a history of up
    to 200 points (the cap) the double computation yields [tenths / 10],
    where [tenths] is the integer nearest to [1000 * up / total] (halves
    rounded up), between 0 and 1000; this is the value of
    [round(up/total * 1000)/10] over exact rationals, which [uptimePct]
    computes for a history of any length. A single up point gives 100, one
    up and one down point give 50. *)
Theorem uptimeFromHistory_rounds (history : list point) :
  uptimeFromHistory [] = 0%float
  /\ uptimePct [] = 0%Q
  /\ (history <> [] ->
      let up := Z.of_nat (upCount history) in
      let total := Z.of_nat (length history) in
      exists tenths : Z,
        uptimePct history = (inject_Z tenths / 10)%Q
        /\ tenths = jsRound (inject_Z up / inject_Z total * 1000)
        /\ 2 * total * tenths <= 2000 * up + total < 2 * total * (tenths + 1)
        /\ 0 <= tenths <= 1000
        /\ ((length history <= 200)%nat ->
            uptimeFromHistory history = PrimFloat.div (floatOfZ tenths) 10%float))
  /\ (forall p, Point.up p = true -> uptimeFromHistory [p] = 100%float)
  /\ (forall p q, Point.up p = true -> Point.up q = false ->
        uptimeFromHistory [p; q] = 50%float).
Proof.
  split; [reflexivity|]. split; [reflexivity|]. split; [|split].
  - intros Hne up total.
    assert (0 < total) as Htot.
    { subst total. destruct history; [congruence|cbn [length]; lia]. }
    assert (0 <= up <= total) as Hup.
    { subst up total. pose proof (upCount_le history). lia. }
    exists (jsRound (inject_Z up / inject_Z total * 1000)).
    split.
    { unfold uptimePct. subst up total.
      destruct history; [congruence|]. reflexivity. }
    split; [reflexivity|].
    rewrite jsRound_ratio by assumption.
    pose proof (Z.div_mod (2000 * up + total) (2 * total)) as Hdm.
    pose proof (Z.mod_pos_bound (2000 * up + total) (2 * total)) as Hmod.
    split; [nia|].
    split.
    { split.
      + apply Z.div_pos; lia.
      + assert ((2000 * up + total) / (2 * total) < 1001) as Hlt
          by (apply Z.div_lt_upper_bound; nia).
        lia. }
    intros Hcap. unfold uptimeFromHistory.
    destruct (Nat.eqb_spec (length history) 0) as [H0|_]; [subst total; lia|].
    unfold mathRound. rewrite scaledRatio_rounds.
    + reflexivity.
    + unfold HISTORY_CAP. subst total. lia.
    + apply upCount_le.
  - intros p Hp. unfold uptimeFromHistory, upCount. cbn. rewrite Hp. reflexivity.
  - intros p q Hp Hq. unfold uptimeFromHistory, upCount. cbn. rewrite Hp, Hq.
    reflexivity.
Qed.

(** ** The event loop: starting checks *)

Lemma startCheck_forced key m now st :
  startCheck key m true now st =
    mkState (monitors st) (timers st)
      (inflight st ++ [mkTask key true now (seq 1 MAX_RETRIES)]) (alertLog st).
Proof. unfold startCheck. rewrite andb_false_r. reflexivity. Qed.

Lemma startCheck_enabled key m f now st :
  Monitor.enabled m = true ->
  startCheck key m f now st =
    mkState (monitors st) (timers st)
      (inflight st ++ [mkTask key f now (seq 1 MAX_RETRIES)]) (alertLog st).
Proof. intros H. unfold startCheck. rewrite H. reflexivity. Qed.

Lemma inflightOf_app id tasks tasks' ms ts al :
  inflightOf id (mkState ms ts (tasks ++ tasks') al) =
    inflightOf id (mkState ms ts tasks al)
    ++ List.filter (fun tk => String.eqb (taskMonitor tk) id) tasks'.
Proof. unfold inflightOf. cbn. apply List.filter_app. Qed.

(** The timing behind an overlap: a probe whose attempts all run into the
    timeout stays in flight longer than the interval, whatever the interval. *)
Lemma probe_outlasts_interval (intervalMs : Z) :
  intervalMs < probeWorstCaseMs intervalMs.
Proof.
  unfold probeWorstCaseMs, attemptTimeout, MAX_RETRIES, RETRY_DELAY_MS.
  pose proof (Z.div_mod (intervalMs * 8) 10) as Hdm.
  pose proof (Z.mod_pos_bound (intervalMs * 8) 10) as Hmod.
  lia.
Qed.

(** C1, as the code has it. Nothing records that a check is in flight: the
    interval callback of an enabled monitor starts a new check at every tick,
    next to whatever checks of that monitor are still in flight, and a forced
    check does the same. A probe can outlast the interval (three timeouts and
    two retry delays exceed every interval), so ticks do find checks in
    flight. *)
Theorem tick_starts_check_regardless (st : State) (id : string) (now : Z)
    (m : monitor) :
  id ∈ timers st ->
  monitors st !! id = Some m ->
  Monitor.enabled m = true ->
  let st' := step st (EvTick id now) in
  inflight st' = inflight st ++ [mkTask id false now (seq 1 MAX_RETRIES)]
  /\ length (inflightOf id st') = S (length (inflightOf id st))
  /\ monitors st' = monitors st
  /\ inflight (step st (EvForceCheck id now)) =
       inflight st ++ [mkTask id true now (seq 1 MAX_RETRIES)]
  /\ (forall intervalMs, intervalMs < probeWorstCaseMs intervalMs).
Proof.
  intros Hin Hm Hen st'. subst st'. cbn [step]. unfold timerTick, forceCheck.
  rewrite Hm. destruct (decide (id ∈ timers st)) as [_|Hn]; [|contradiction].
  rewrite startCheck_enabled by assumption. rewrite startCheck_forced.
  cbn [inflight monitors].
  split; [reflexivity|]. split; [|split; [reflexivity|split; [reflexivity|]]].
  - destruct st as [ms ts tasks al]. rewrite inflightOf_app. cbn [inflight].
    rewrite length_app. cbn. rewrite String.eqb_refl. cbn. lia.
  - apply probe_outlasts_interval.
Qed.

(** ** The event loop: the sweep *)

Lemma statusIsDown_not_up ls : statusIsDown ls = negb (statusIsUp ls).
Proof.
  destruct ls as [s|]; [|reflexivity]. unfold statusIsDown, statusIsUp, isUpStatus.
  destruct (Z.ltb_spec s 200), (Z.leb_spec 200 s), (Z.leb_spec 400 s),
    (Z.ltb_spec s 400); cbn; try reflexivity; lia.
Qed.

Lemma downMonitors_spec st k m :
  In (k, m) (downMonitors st) <->
    monitors st !! k = Some m
    /\ Monitor.enabled m = true
    /\ statusIsUp (Monitor.lastStatus m) = false.
Proof.
  unfold downMonitors. rewrite List.filter_In.
  rewrite <- list_elem_of_In, elem_of_map_to_list. cbn.
  unfold isDownEnabled. rewrite statusIsDown_not_up.
  rewrite andb_true_iff, negb_true_iff. tauto.
Qed.

Lemma downMonitors_NoDup st : List.NoDup (map fst (downMonitors st)).
Proof.
  unfold downMonitors. apply NoDup_ListNoDup.
  pose proof (NoDup_fst_map_to_list (monitors st)) as Hnd.
  revert Hnd. generalize (map_to_list (monitors st)) as l.
  induction l as [|km l IH]; intros Hnd; cbn; [constructor|].
  inversion Hnd as [|? ? Hnotin Hnd']; subst.
  destruct (isDownEnabled km.2); [|apply IH, Hnd'].
  cbn. constructor; [|apply IH, Hnd'].
  intros Hin. apply Hnotin.
  apply list_elem_of_fmap in Hin as (km' & Heq & Hin).
  apply list_elem_of_fmap. exists km'. split; [exact Heq|].
  apply list_elem_of_In. apply list_elem_of_In in Hin.
  apply List.filter_In in Hin. tauto.
Qed.

Lemma sweep_fold now (l : list (string * monitor)) (st : State) :
  (forall km, In km l ->
     monitors st !! Monitor.id km.2 = Some km.2 /\ Monitor.id km.2 = km.1) ->
  foldl (fun s km => forceCheck (Monitor.id km.2) now s) st l =
    mkState (monitors st) (timers st)
      (inflight st ++ map (fun km => mkTask km.1 true now (seq 1 MAX_RETRIES)) l)
      (alertLog st).
Proof.
  revert st. induction l as [|km l IH]; intros st Hl.
  - cbn. rewrite app_nil_r. destruct st; reflexivity.
  - cbn [foldl map]. destruct (Hl km (or_introl eq_refl)) as [Hlook Hid].
    unfold forceCheck at 2. rewrite Hlook, startCheck_forced, Hid.
    rewrite IH; cbn [monitors timers inflight alertLog].
    + rewrite <- app_assoc. reflexivity.
    + intros km' Hin. apply Hl. right. exact Hin.
Qed.

Lemma forceCheckAllDown_fold now (l : list (string * monitor)) (st : State) :
  foldl (fun s km => startCheck km.1 km.2 true now s) st l =
    mkState (monitors st) (timers st)
      (inflight st ++ map (fun km => mkTask km.1 true now (seq 1 MAX_RETRIES)) l)
      (alertLog st).
Proof.
  revert st. induction l as [|km l IH]; intros st.
  - cbn. rewrite app_nil_r. destruct st; reflexivity.
  - cbn [foldl map]. rewrite startCheck_forced, IH.
    cbn [monitors timers inflight alertLog].
    rewrite <- app_assoc. reflexivity.
Qed.

Lemma sweepTick_spawns now st :
  wellKeyed st ->
  sweepTick now st =
    mkState (monitors st) (timers st)
      (inflight st
       ++ map (fun km => mkTask km.1 true now (seq 1 MAX_RETRIES)) (downMonitors st))
      (alertLog st).
Proof.
  intros Hwk. unfold sweepTick. apply sweep_fold.
  intros [k m] Hin. apply downMonitors_spec in Hin as (Hlook & _ & _).
  cbn. pose proof (Hwk k m Hlook) as Hid. rewrite Hid. split; [exact Hlook|reflexivity].
Qed.

(** ** The event loop: settling touches one monitor *)

Lemma inflightOf_nil k st : inflightOf k st = [] <-> noTaskOf k (inflight st).
Proof.
  unfold inflightOf, noTaskOf. generalize (inflight st) as l.
  induction l as [|tk l IH]; cbn; [split; [constructor|reflexivity]|].
  destruct (String.eqb_spec (taskMonitor tk) k) as [Heq|Hne].
  - split; [discriminate|]. intros H. inversion H; subst. contradiction.
  - rewrite IH. split; [intros H; constructor; assumption|].
    intros H. inversion H; assumption.
Qed.

Lemma settle_frame n a st k :
  noTaskOf k (inflight st) ->
  monitors (settle n a st) !! k = monitors st !! k
  /\ noTaskOf k (inflight (settle n a st)).
Proof.
  intros Hno. unfold settle.
  destruct (inflight st !! n) as [tk|] eqn:Htk; [|split; [reflexivity|exact Hno]].
  assert (taskMonitor tk <> k) as Hne.
  { unfold noTaskOf in Hno. rewrite Forall_lookup in Hno. exact (Hno n tk Htk). }
  destruct (taskPending tk) as [|att rest]; [split; [reflexivity|exact Hno]|].
  destruct (monitors st !! taskMonitor tk) as [m|];
    [|split; [reflexivity|exact Hno]].
  destruct (attemptStep m (taskForced tk) (taskStarted tk) att a) as [[m' al] brk].
  cbn [monitors inflight]. split.
  - apply lookup_insert_ne. exact Hne.
  - destruct (brk || bool_decide (rest = [])).
    + apply Forall_delete. exact Hno.
    + apply Forall_insert; [exact Hno|]. exact Hne.
Qed.

Lemma run_settle_frame evs st k :
  Forall (fun ev => isSettle ev = true) evs ->
  noTaskOf k (inflight st) ->
  monitors (run st evs) !! k = monitors st !! k.
Proof.
  revert st. induction evs as [|ev evs IH]; intros st Hevs Hno; [reflexivity|].
  inversion Hevs as [|? ? Hev Hevs']; subst.
  destruct ev as [| | | |n a]; try discriminate.
  cbn [run foldl step]. fold (run (settle n a st) evs).
  destruct (settle_frame n a st k Hno) as [Hm Hno'].
  rewrite IH by assumption. exact Hm.
Qed.

(** ** The event loop: a check run to completion is [checkOnce] *)

Lemma settleEvents_cons net att rest :
  settleEvents net (att :: rest) =
    EvSettle 0 (net att)
    :: (if attemptBreaks att (net att) then [] else settleEvents net rest).
Proof.
  unfold settleEvents. cbn [attemptsRun map].
  destruct (attemptBreaks att (net att)); reflexivity.
Qed.

Lemma run_cons st ev evs : run st (ev :: evs) = run (step st ev) evs.
Proof. reflexivity. Qed.

Lemma settle_head att rest k f s others st m a :
  inflight st = mkTask k f s (att :: rest) :: others ->
  monitors st !! k = Some m ->
  settle 0 a st =
    mkState (<[k := (attemptStep m f s att a).1.1]> (monitors st)) (timers st)
      (if (attemptStep m f s att a).2 || bool_decide (rest = []) then others
       else mkTask k f s rest :: others)
      (alertLog st ++ (attemptStep m f s att a).1.2).
Proof.
  intros Hfl Hm. unfold settle. rewrite Hfl.
  cbn [lookup list_lookup taskPending taskMonitor taskForced taskStarted].
  rewrite Hm. destruct (attemptStep m f s att a) as [[m' al] brk]. cbn [fst snd].
  destruct (brk || bool_decide (rest = [])); reflexivity.
Qed.

Lemma retryLoop_cons net f s att rest m :
  retryLoop net f s (att :: rest) m =
    let '(m', al, brk) := attemptStep m f s att (net att) in
    if brk then (m', al)
    else
      let '(m'', al') := retryLoop net f s rest m' in
      (m'', al ++ al').
Proof. reflexivity. Qed.

Lemma task_runs_retryLoop net k f s rest :
  forall att others (st : State) m,
    inflight st = mkTask k f s (att :: rest) :: others ->
    monitors st !! k = Some m ->
    run st (settleEvents net (att :: rest)) =
      mkState (<[k := (retryLoop net f s (att :: rest) m).1]> (monitors st))
        (timers st) others
        (alertLog st ++ (retryLoop net f s (att :: rest) m).2).
Proof.
  induction rest as [|att2 rest IH]; intros att others st m Hfl Hm;
    rewrite settleEvents_cons, run_cons; cbn [step];
    rewrite (settle_head att _ k f s others st m _ Hfl Hm);
    rewrite (retryLoop_cons net f s att);
    pose proof (attemptStep_breaks m f s att (net att)) as Hb;
    destruct (attemptStep m f s att (net att)) as [[m' al] brk];
    cbn [fst snd] in Hb |- *; subst brk;
    destruct (attemptBreaks att (net att)); cbn [orb]; try reflexivity.
  - cbn. rewrite app_nil_r. reflexivity.
  - rewrite bool_decide_eq_false_2 by discriminate.
    rewrite (IH att2 others _ m'); cbn [inflight monitors timers alertLog].
    + destruct (retryLoop net f s (att2 :: rest) m') as [m'' al'].
      cbn [fst snd]. rewrite insert_insert_eq, <- app_assoc. reflexivity.
    + reflexivity.
    + apply lookup_insert_eq.
Qed.

(** A forced check started on [m] and run to completion, with no other
    callback in between, leaves what [checkOnce(m, true)] computes. *)
Lemma forced_check_runs_checkOnce net k m now st :
  inflight st = [] ->
  monitors st !! k = Some m ->
  run (startCheck k m true now st) (settleEvents net (seq 1 MAX_RETRIES)) =
    mkState (<[k := (checkOnce net now m true).1]> (monitors st)) (timers st) []
      (alertLog st ++ (checkOnce net now m true).2).
Proof.
  intros Hfl Hm. rewrite startCheck_forced, Hfl.
  unfold checkOnce. rewrite andb_false_r.
  change (seq 1 MAX_RETRIES) with (1%nat :: seq 2 2).
  rewrite (task_runs_retryLoop net k true now (seq 2 2) 1%nat [] _ m);
    [reflexivity|reflexivity|exact Hm].
Qed.

Lemma run_app st evs evs' : run st (evs ++ evs') = run (run st evs) evs'.
Proof. apply foldl_app. Qed.

Lemma run_forced_tasks nets now (l : list (string * monitor)) :
  forall st,
    List.NoDup (map fst l) ->
    (forall km, In km l -> monitors st !! km.1 = Some km.2) ->
    inflight st = map (forcedTask now) l ->
    monitors (run st (settleAll nets l)) = foldl (forcedResult nets now) (monitors st) l
    /\ inflight (run st (settleAll nets l)) = []
    /\ timers (run st (settleAll nets l)) = timers st.
Proof.
  induction l as [|[k m] l IH]; intros st Hnd Hl Hfl.
  - cbn. rewrite Hfl. repeat split; reflexivity.
  - unfold settleAll. cbn [map concat]. fold (settleAll nets l).
    rewrite run_app. cbn [fst].
    inversion Hnd as [|? ? Hnotin Hnd']; subst.
    assert (monitors st !! k = Some m) as Hm by (apply (Hl (k, m)); left; reflexivity).
    change (seq 1 MAX_RETRIES) with (1%nat :: seq 2 2).
    rewrite (task_runs_retryLoop (nets k) k true now (seq 2 2) 1%nat
               (map (forcedTask now) l) st m); [|rewrite Hfl; reflexivity|exact Hm].
    match goal with |- context [run ?s (settleAll nets l)] => set (st1 := s) end.
    destruct (IH st1) as (IHm & IHf & IHt).
    + exact Hnd'.
    + intros [k' m'] Hin. subst st1. cbn [monitors fst snd].
      rewrite lookup_insert_ne; [apply (Hl (k', m')); right; exact Hin|].
      intros <-. apply Hnotin. apply (List.in_map fst) in Hin. exact Hin.
    + reflexivity.
    + rewrite IHm, IHf, IHt. subst st1. cbn [monitors timers foldl].
      split; [|split; reflexivity]. f_equal.
      unfold forcedResult. cbn [fst snd]. unfold checkOnce.
      cbn [negb]. rewrite andb_false_r. reflexivity.
Qed.

Lemma foldl_forcedResult_lookup nets now (l : list (string * monitor)) :
  forall (ms : gmap string monitor) k,
    List.NoDup (map fst l) ->
    foldl (forcedResult nets now) ms l !! k =
      match List.find (fun km => String.eqb km.1 k) l with
      | Some km => Some (checkOnce (nets k) now km.2 true).1
      | None => ms !! k
      end.
Proof.
  induction l as [|[k' m'] l IH]; intros ms k Hnd; [reflexivity|].
  inversion Hnd as [|? ? Hnotin Hnd']; subst.
  cbn [foldl List.find fst]. rewrite IH by assumption.
  destruct (String.eqb_spec k' k) as [->|Hne].
  - destruct (List.find (fun km => String.eqb km.1 k) l) as [km|] eqn:Hfind.
    + apply List.find_some in Hfind as [Hin Heq].
      apply String.eqb_eq in Heq. exfalso. apply Hnotin.
      rewrite <- Heq. apply (List.in_map fst), Hin.
    + unfold forcedResult. cbn [fst snd]. apply lookup_insert_eq.
  - destruct (List.find (fun km => String.eqb km.1 k) l); [reflexivity|].
    unfold forcedResult. cbn [fst]. apply lookup_insert_ne. exact Hne.
Qed.

Lemma isDownEnabled_spec m :
  isDownEnabled m = true <->
    Monitor.enabled m = true /\ statusIsUp (Monitor.lastStatus m) = false.
Proof.
  unfold isDownEnabled. rewrite statusIsDown_not_up.
  rewrite andb_true_iff, negb_true_iff. tauto.
Qed.

(** C8. A sweep tick changes no monitor by itself; it starts one forced
    check for each enabled monitor whose [lastStatus] is outside [200,400)
    and for no other monitor. Whatever way the in-flight checks then settle,
    a monitor that is up (or disabled) and has no check of its own in flight
    keeps its state. When the swept checks are run to their end, each down
    monitor holds the result of [checkOnce(m, true)] and every other monitor
    is as before. *)
Theorem sweep_forces_exactly_down (st : State) (now : Z) :
  wellKeyed st ->
  let st' := step st (EvSweep now) in
  monitors st' = monitors st
  /\ inflight st' = inflight st ++ map (forcedTask now) (downMonitors st)
  /\ List.NoDup (map fst (downMonitors st))
  /\ (forall k m,
        In (k, m) (downMonitors st) <->
          monitors st !! k = Some m
          /\ Monitor.enabled m = true
          /\ statusIsUp (Monitor.lastStatus m) = false)
  /\ (forall k evs,
        inflightOf k st = [] ->
        (forall m, ~ In (k, m) (downMonitors st)) ->
        Forall (fun ev => isSettle ev = true) evs ->
        monitors (run st' evs) !! k = monitors st !! k)
  /\ (forall nets,
        inflight st = [] ->
        let final := run st' (settleAll nets (downMonitors st)) in
        inflight final = []
        /\ forall k m,
             monitors st !! k = Some m ->
             monitors final !! k =
               Some (if isDownEnabled m
                     then (checkOnce (nets k) now m true).1
                     else m)).
Proof.
  intros Hwk st'. subst st'. cbn [step].
  rewrite (sweepTick_spawns now st Hwk). cbn [monitors inflight].
  split; [reflexivity|]. split; [reflexivity|].
  split; [apply downMonitors_NoDup|]. split; [apply downMonitors_spec|].
  split.
  - intros k evs Hk Hnot Hevs.
    rewrite run_settle_frame; [reflexivity|exact Hevs|].
    cbn [inflight]. apply Forall_app. split; [apply inflightOf_nil, Hk|].
    apply List.Forall_forall. intros tk Hin.
    apply List.in_map_iff in Hin as ([k' m'] & <- & Hin). cbn.
    intros ->. exact (Hnot m' Hin).
  - intros nets Hfl. cbv zeta.
    match goal with |- context [run ?s _] => set (st1 := s) end.
    destruct (run_forced_tasks nets now (downMonitors st) st1) as (Hms & Hfin & _).
    + apply downMonitors_NoDup.
    + intros [k m] Hin. apply downMonitors_spec in Hin as [Hin _]. exact Hin.
    + subst st1. cbn [inflight]. rewrite Hfl. reflexivity.
    + split; [exact Hfin|]. intros k m Hm. rewrite Hms.
      rewrite foldl_forcedResult_lookup by apply downMonitors_NoDup.
      subst st1. cbn [monitors].
      destruct (List.find (fun km => String.eqb km.1 k) (downMonitors st))
        as [[k' m']|] eqn:Hfind.
      * apply List.find_some in Hfind as [Hin Heq]. cbn in Heq.
        apply String.eqb_eq in Heq. subst k'.
        apply downMonitors_spec in Hin as (Hm' & Hen & Hup).
        rewrite Hm in Hm'. injection Hm' as <-.
        rewrite (proj2 (isDownEnabled_spec m) (conj Hen Hup)). reflexivity.
      * destruct (isDownEnabled m) eqn:Hde; [|exact Hm].
        apply isDownEnabled_spec in Hde as [Hen Hup].
        pose proof (proj2 (downMonitors_spec st k m) (conj Hm (conj Hen Hup))) as Hin.
        pose proof (List.find_none _ _ Hfind _ Hin) as Hf. cbn in Hf.
        rewrite String.eqb_refl in Hf. discriminate.
Qed.

(** ** The interval floor *)

Lemma numberOrDefault_truthy ops v : numTruthy (numberOrDefault ops v) = true.
Proof.
  unfold numberOrDefault. destruct (numTruthy (toNumber ops v)) eqn:E; [exact E|].
  reflexivity.
Qed.

Lemma createInterval_floor ops v :
  numGe (createInterval ops v) (inject_Z INTERVAL_FLOOR) = true.
Proof.
  unfold createInterval. pose proof (numberOrDefault_truthy ops v) as Ht.
  destruct (numberOrDefault ops v) as [q| | |]; cbn in *; try discriminate;
    try reflexivity.
  destruct (Qle_bool (inject_Z INTERVAL_FLOOR) q) eqn:E; cbn; [exact E|reflexivity].
Qed.

Lemma patchInterval_below ops old v :
  numLt (toNumber ops v) (inject_Z INTERVAL_FLOOR) = true ->
  patchInterval ops old v = old.
Proof.
  unfold patchInterval. intros Hlt. destruct (isUndefined v); [reflexivity|].
  destruct (toNumber ops v) as [q| | |]; cbn in *; try reflexivity.
  apply negb_true_iff in Hlt. rewrite Hlt. reflexivity.
Qed.

Lemma patchInterval_floor ops old v :
  numGe old (inject_Z INTERVAL_FLOOR) = true ->
  numGe (patchInterval ops old v) (inject_Z INTERVAL_FLOOR) = true.
Proof.
  unfold patchInterval. intros Hold. destruct (isUndefined v); [exact Hold|].
  destruct (numIsFinite (toNumber ops v)
            && numGe (toNumber ops v) (inject_Z INTERVAL_FLOOR)) eqn:E;
    [|exact Hold].
  apply andb_true_iff in E as [_ E]. exact E.
Qed.

(** C6, as the code has it. Neither handler rejects a request because of its
    interval. Create stores the floor, 2000, for a supplied number below it
    ([intervalMs = 500] stores 2000), and the default, 5000, when the value
    is zero or not a number; the created monitor's interval is at least 2000.
    Patch leaves the stored interval as it is when the supplied value is
    below the floor, and keeps an interval that was at least 2000 at least
    2000. *)
Theorem interval_floor_on_create_and_patch (ops : StringOps) :
  (forall id body v,
      replyKind (createMonitor ops id (mkCreateBody (cName body) (cUrl body) v))
      = replyKind (createMonitor ops id body))
  /\ (forall id body m,
        createMonitor ops id body = Ok m ->
        Monitor.intervalMs m = createInterval ops (cIntervalMs body)
        /\ intervalAtLeastFloor m)
  /\ (forall v,
        numTruthy (toNumber ops v) = true ->
        numLt (toNumber ops v) 2000 = true ->
        createInterval ops v = Fin 2000)
  /\ (forall v,
        numTruthy (toNumber ops v) = false ->
        createInterval ops v = Fin 5000)
  /\ createInterval ops (JNum (Fin 500)) = Fin 2000
  /\ (forall m body v,
        replyKind (patchMonitor ops m
                     (mkPatchBody (pName body) (pUrl body) v (pEnabled body)))
        = replyKind (patchMonitor ops m body))
  /\ (forall m body m',
        patchMonitor ops m body = Ok m' ->
        numLt (toNumber ops (pIntervalMs body)) 2000 = true ->
        Monitor.intervalMs m' = Monitor.intervalMs m)
  /\ (forall m body m',
        patchMonitor ops m body = Ok m' ->
        intervalAtLeastFloor m ->
        intervalAtLeastFloor m').
Proof.
  repeat apply conj.
  - intros id body v. unfold createMonitor. cbn [cUrl cName cIntervalMs].
    destruct (cUrl body) as [| | | |u|]; try reflexivity.
    destruct (String.eqb u ""); [reflexivity|].
    destruct (normalizeName ops (cName body)); reflexivity.
  - intros id body m H. unfold createMonitor in H.
    destruct (cUrl body) as [| | | |u|]; try discriminate.
    destruct (String.eqb u ""); [discriminate|].
    destruct (normalizeName ops (cName body)); [|discriminate].
    injection H as <-. split; [reflexivity|]. apply createInterval_floor.
  - intros v Ht Hlt. unfold createInterval, numberOrDefault. rewrite Ht.
    change (inject_Z INTERVAL_FLOOR) with 2000%Q. rewrite Hlt. reflexivity.
  - intros v Ht. unfold createInterval, numberOrDefault. rewrite Ht. reflexivity.
  - reflexivity.
  - intros m body v. unfold patchMonitor. cbn [pName pUrl pIntervalMs pEnabled].
    destruct (if isUndefined (pName body) then _ else _); reflexivity.
  - intros m body m' H Hlt. unfold patchMonitor in H.
    destruct (if isUndefined (pName body) then _ else _); [|discriminate].
    injection H as <-. cbn [Monitor.intervalMs].
    apply patchInterval_below. exact Hlt.
  - intros m body m' H Hm. unfold patchMonitor in H.
    destruct (if isUndefined (pName body) then _ else _); [|discriminate].
    injection H as <-. unfold intervalAtLeastFloor. cbn [Monitor.intervalMs].
    apply patchInterval_floor. exact Hm.
Qed.

(** ** The event loop keeps every history capped *)

Lemma attemptStep_capped m f s att a :
  historyCapped m -> historyCapped (attemptStep m f s att a).1.1.
Proof.
  intros Hm. rewrite attemptStep_monitor.
  destruct (attemptPoint f s att a) as [p|]; [|exact Hm].
  unfold historyCapped in *. cbn.
  rewrite pushShift_sliceLast by exact Hm. rewrite sliceLast_length. lia.
Qed.

Lemma startCheck_monitors key m f now st :
  monitors (startCheck key m f now st) = monitors st.
Proof. unfold startCheck. destruct (negb _ && negb _); reflexivity. Qed.

Lemma forceCheck_monitors id now st :
  monitors (forceCheck id now st) = monitors st.
Proof.
  unfold forceCheck. destruct (monitors st !! id); [|reflexivity].
  apply startCheck_monitors.
Qed.

Lemma foldl_monitors {A : Type} (g : State -> A -> State) (l : list A) :
  (forall s x, monitors (g s x) = monitors s) ->
  forall st, monitors (foldl g st l) = monitors st.
Proof.
  intros Hg. induction l as [|x l IH]; intros st; [reflexivity|].
  cbn [foldl]. rewrite IH. apply Hg.
Qed.

Lemma step_capped st ev :
  map_Forall (fun _ m => historyCapped m) (monitors st) ->
  map_Forall (fun _ m => historyCapped m) (monitors (step st ev)).
Proof.
  intros Hst. destruct ev as [id now|now|id now|now|n a]; cbn [step].
  - unfold timerTick. destruct (decide (id ∈ timers st)); [|exact Hst].
    destruct (monitors st !! id); [|exact Hst].
    rewrite startCheck_monitors. exact Hst.
  - unfold sweepTick. rewrite foldl_monitors; [exact Hst|].
    intros s km. apply forceCheck_monitors.
  - rewrite forceCheck_monitors. exact Hst.
  - unfold forceCheckAllDown. rewrite foldl_monitors; [exact Hst|].
    intros s km. apply startCheck_monitors.
  - unfold settle. destruct (inflight st !! n) as [tk|]; [|exact Hst].
    destruct (taskPending tk) as [|att rest]; [exact Hst|].
    destruct (monitors st !! taskMonitor tk) as [m|] eqn:Hm; [|exact Hst].
    pose proof (attemptStep_capped m (taskForced tk) (taskStarted tk) att a
                  (Hst _ _ Hm)) as Hcap.
    destruct (attemptStep m (taskForced tk) (taskStarted tk) att a)
      as [[m' al] brk].
    cbn [monitors]. apply map_Forall_insert_2; assumption.
Qed.

Lemma run_capped evs st :
  map_Forall (fun _ m => historyCapped m) (monitors st) ->
  map_Forall (fun _ m => historyCapped m) (monitors (run st evs)).
Proof.
  revert st. induction evs as [|ev evs IH]; intros st Hst; [exact Hst|].
  rewrite run_cons. apply IH, step_capped, Hst.
Qed.

(** C2. After any sequence of checks of a monitor whose history holds at
    most 200 points (as every created, loaded or reset monitor does), the
    history still holds at most 200 points; it is the last 200 of the old
    history followed by the points the checks recorded, in order: points are
    only appended, and the oldest are dropped first. A single push leaves the
    new point last and drops at most the head. The cap also holds on the
    event loop, however ticks, sweeps, forced checks and settlements of
    in-flight checks interleave. *)
Theorem history_ring_buffer (m : monitor) (cs : list Check) :
  (length (Monitor.history m) <= HISTORY_CAP)%nat ->
  (length (Monitor.history (runChecks cs m)) <= 200)%nat
  /\ Monitor.history (runChecks cs m) =
       sliceLast 200
         (Monitor.history m
          ++ concat (map (fun c => checkPoints (checkNet c) (checkStarted c) m (checkForced c)) cs))
  /\ (forall p, pushShift (Monitor.history m) p =
        if (length (Monitor.history m) <? 200)%nat
        then Monitor.history m ++ [p]
        else tail (Monitor.history m) ++ [p])
  /\ (forall id name url iv, Monitor.history (newMonitor id name url iv) = [])
  /\ (forall raw, (length (loadHistory raw) <= 200)%nat)
  /\ (forall st evs,
        map_Forall (fun _ m' => (length (Monitor.history m') <= 200)%nat) (monitors st) ->
        map_Forall (fun _ m' => (length (Monitor.history m') <= 200)%nat)
          (monitors (run st evs))).
Proof.
  intros Hm. split; [|split; [|split; [|split; [|split]]]].
  - rewrite runChecks_history by assumption.
    rewrite sliceLast_length. unfold HISTORY_CAP. lia.
  - apply runChecks_history, Hm.
  - intros p. unfold pushShift. rewrite length_app. cbn [length].
    unfold HISTORY_CAP in *.
    destruct (Nat.ltb_spec 200 (length (Monitor.history m) + 1));
      destruct (Nat.ltb_spec (length (Monitor.history m)) 200);
      try lia; [|reflexivity].
    destruct (Monitor.history m); [cbn in *; lia|reflexivity].
  - reflexivity.
  - intros [h|]; cbn; [|lia]. rewrite sliceLast_length. unfold HISTORY_CAP. lia.
  - intros st evs. apply run_capped.
Qed.

(** * Concrete runs *)

Lemma stBusy_in_flight :
  "m1" ∈ timers stBusy
  /\ monitors stBusy !! "m1" = Some monBusy
  /\ length (inflightOf "m1" stBusy) = 1%nat.
Proof.
  split; [|split; vm_compute; reflexivity].
  compute_done.
Qed.

(** C1, refuted as stated: a freshly started monitor with the 2000 ms
    interval has one check in flight (answered 500 at 1500 ms, within the
    attempt's timeout, and waiting to retry until 2500 ms); the tick at
    2000 ms is not skipped, it starts a second check of the same monitor
    while the first is still in flight. *)
Lemma tick_overlaps_in_flight_check :
  nowLatency (net500 1%nat) < attemptTimeout 2000
  /\ nowLatency (net500 1%nat) < 2000 < nowLatency (net500 1%nat) + RETRY_DELAY_MS
  /\ length (inflightOf "m1" stBusy) = 1%nat
  /\ length (inflightOf "m1" (step stBusy (EvTick "m1" 2000))) = 2%nat
  /\ ~ (length (inflightOf "m1" (step stBusy (EvTick "m1" 2000))) <= 1)%nat.
Proof.
  split; [vm_compute; reflexivity|]. split; [vm_compute; split; reflexivity|].
  split; [vm_compute; reflexivity|]. split; [vm_compute; reflexivity|].
  vm_compute. lia.
Qed.

Lemma tick_starts_check_regardless_witness :
  "m1" ∈ timers stBusy
  /\ monitors stBusy !! "m1" = Some monBusy
  /\ Monitor.enabled monBusy = true
  /\ length (inflightOf "m1" (step stBusy (EvTick "m1" 2000))) =
       S (length (inflightOf "m1" stBusy)).
Proof.
  assert ("m1" ∈ timers stBusy) as H1
    by compute_done.
  assert (monitors stBusy !! "m1" = Some monBusy) as H2
    by (vm_compute; reflexivity).
  assert (Monitor.enabled monBusy = true) as H3 by reflexivity.
  split; [exact H1|]. split; [exact H2|]. split; [exact H3|].
  exact (proj1 (proj2 (tick_starts_check_regardless stBusy "m1" 2000 monBusy H1 H2 H3))).
Defined.

Lemma history_ring_buffer_witness :
  (length (Monitor.history monFull) <= HISTORY_CAP)%nat
  /\ (length (Monitor.history (runChecks [check500] monFull)) <= 200)%nat
  /\ Monitor.history (runChecks [check500] monFull) =
       sliceLast 200
         (Monitor.history monFull
          ++ concat (map (fun c => checkPoints (checkNet c) (checkStarted c)
                                     monFull (checkForced c)) [check500])).
Proof.
  assert (length (Monitor.history monFull) <= HISTORY_CAP)%nat as H
    by (vm_compute; lia).
  split; [exact H|].
  pose proof (history_ring_buffer monFull [check500] H) as (H1 & H2 & _).
  split; [exact H1 | exact H2].
Defined.

(** The full history after one probe answered 500 three times: still 200
    points, the three oldest gone, the three new ones last. *)
Example history_full_evicts_oldest :
  let h := Monitor.history (runChecks [check500] monFull) in
  length h = 200%nat
  /\ Point.t <$> head h = Some 4
  /\ map Point.attempt (drop 197 h) = [1; 2; 3]%nat.
Proof. vm_compute. repeat split; reflexivity. Qed.






Lemma disabled_guard_witness :
  Monitor.enabled monOff = false
  /\ checkOnce net500 0 monOff false = (monOff, [])
  /\ checkOnce net500 0 monOff true =
       retryLoop net500 true 0 (seq 1 MAX_RETRIES) monOff.
Proof.
  split; [reflexivity|].
  pose proof (disabled_guard net500 0 monOff eq_refl) as (H1 & H2 & _).
  split; [exact H1 | exact H2].
Defined.

(** A forced check of a disabled monitor: three points are appended, all
    marked forced. *)
Example forced_check_of_disabled_monitor :
  map Point.forced (Monitor.history (checkOnce net500 0 monOff true).1)
    = [true; true; true]
  /\ Monitor.history (checkOnce net500 0 monOff false).1 = [].
Proof. vm_compute. split; reflexivity. Qed.




(** C6, refuted as stated: a patch with [intervalMs = 500] leaves the stored
    5000 in place instead of storing 2000; a create with [intervalMs = 0]
    stores the default 5000; an entry of a bulk create with
    [intervalMs = 500] is stored with 500, below the floor. *)
Lemma interval_below_floor_not_clamped :
  (exists m, patchMonitor asciiOps mon5000 (patchIntervalOnly (JNum (Fin 500))) = Ok m
             /\ Monitor.intervalMs m = Fin 5000
             /\ Monitor.intervalMs m <> Fin 2000)
  /\ (exists m, createMonitor asciiOps "m1" (bodyInterval (JNum (Fin 0))) = Ok m
                /\ Monitor.intervalMs m = Fin 5000)
  /\ (exists m, bulkMonitor asciiOps "m2" "example.com" JUndefined (JNum (Fin 500))
                  = Ok (Some m)
                /\ Monitor.intervalMs m = Fin 500
                /\ numGe (Monitor.intervalMs m) 2000 = false).
Proof.
  split; [|split]; eexists; (split; [vm_compute; reflexivity|]);
    repeat split; try reflexivity. discriminate.
Qed.

Lemma interval_floor_on_create_and_patch_witness :
  (exists m, createMonitor asciiOps "m1" (bodyInterval (JNum (Fin 500))) = Ok m
             /\ Monitor.url m = "http://example.com"%string
             /\ Monitor.intervalMs m = Fin 2000
             /\ intervalAtLeastFloor m)
  /\ createInterval asciiOps (JNum (Fin 500)) = Fin 2000.
Proof.
  pose proof (interval_floor_on_create_and_patch asciiOps)
    as (_ & Hcreate & _ & _ & H500 & _).
  split; [|exact H500].
  eexists. split; [vm_compute; reflexivity|]. split; [reflexivity|].
  split; [reflexivity|].
  refine (proj2 (Hcreate "m1"%string (bodyInterval (JNum (Fin 500))) _ _)).
  vm_compute. reflexivity.
Defined.

Lemma stThree_wellKeyed : wellKeyed stThree.
Proof.
  unfold wellKeyed, stThree. cbn [monitors].
  apply map_Forall_insert_2; [reflexivity|].
  apply map_Forall_insert_2; [reflexivity|].
  apply map_Forall_singleton. reflexivity.
Defined.

Lemma sweep_forces_exactly_down_witness :
  wellKeyed stThree
  /\ (forall k m,
        In (k, m) (downMonitors stThree) <->
          monitors stThree !! k = Some m
          /\ Monitor.enabled m = true
          /\ statusIsUp (Monitor.lastStatus m) = false)
  /\ (forall nets,
        let final :=
          run (step stThree (EvSweep 30000))
            (settleAll nets (downMonitors stThree)) in
        monitors final !! "u3" = Some monUp3
        /\ monitors final !! "d1" = Some (checkOnce (nets "d1"%string) 30000 monDown1 true).1
        /\ monitors final !! "d2" = Some (checkOnce (nets "d2"%string) 30000 monDown2 true).1).
Proof.
  split; [exact stThree_wellKeyed|].
  pose proof (sweep_forces_exactly_down stThree 30000 stThree_wellKeyed)
    as (_ & _ & _ & Hdown & _ & Hrun).
  split; [exact Hdown|].
  intros nets final. subst final.
  destruct (Hrun nets eq_refl) as [_ Hfinal].
  split; [|split].
  - exact (Hfinal "u3"%string monUp3 eq_refl).
  - exact (Hfinal "d1"%string monDown1 eq_refl).
  - exact (Hfinal "d2"%string monDown2 eq_refl).
Defined.

(** The sweep over two down monitors and one up monitor: forced checks are
    started for the two down monitors only, and when both targets fail again
    the up monitor's [lastChecked] is what it was. *)
Example sweep_two_down_one_up :
  let st' := step stThree (EvSweep 30000) in
  let final := run st' (settleAll (fun _ => netFail) (downMonitors stThree)) in
  map fst (downMonitors stThree) ≡ₚ ["d1"; "d2"]%string
  /\ map taskForced (inflight st') = [true; true]
  /\ Monitor.lastChecked <$> monitors final !! "u3" = Some (Some 1000)
  /\ Monitor.lastChecked <$> monitors final !! "d1" = Some (Some 9000)
  /\ Monitor.lastChecked <$> monitors final !! "d2" = Some (Some 9000).
Proof.
  cbv zeta. split; [|vm_compute; repeat split; reflexivity].
  vm_compute. first [reflexivity | apply Permutation_swap].
Qed.

(** * Further properties of the server *)

#[local] Set Warnings "-clear-no-such-hyp".

(** ** What a check leaves alone *)

Lemma applyPoint_config m p : configOf (applyPoint m p) = configOf m.
Proof. reflexivity. Qed.

Lemma foldl_applyPoint_config ps m : configOf (foldl applyPoint m ps) = configOf m.
Proof.
  revert m. induction ps as [|p ps IH]; intros m; [reflexivity|].
  cbn [foldl]. rewrite IH. apply applyPoint_config.
Qed.

Lemma attemptStep_config m f s att a :
  configOf (attemptStep m f s att a).1.1 = configOf m.
Proof.
  rewrite attemptStep_monitor. destruct (attemptPoint f s att a); reflexivity.
Qed.

Lemma checkOnce_config net s m f : configOf (checkOnce net s m f).1 = configOf m.
Proof.
  rewrite (proj1 (checkOnce_view net s m f)). apply foldl_applyPoint_config.
Qed.

Lemma nameOrUrl_config m m' : configOf m' = configOf m -> nameOrUrl m' = nameOrUrl m.
Proof. unfold configOf, nameOrUrl. intros [= _ -> -> _ _ _]. reflexivity. Qed.

(** ** Alerts describe the attempt that raised them *)

Lemma attemptStep_alert_reports m f s att at0 a :
  In a (attemptStep m f s att at0).1.2 ->
  exists p, attemptPoint f s att at0 = Some p /\ alertReports m a p.
Proof.
  unfold attemptStep, attemptPoint.
  destruct (result at0) as [status|message]; cbn.
  - destruct (Bool.eqb _ _); cbn; [tauto|]. intros [<-|[]].
    eexists. split; [reflexivity|]. repeat split.
  - unfold onError. destruct (att =? MAX_RETRIES)%nat; cbn; [|tauto].
    destruct (statusIsUp _); cbn; [|tauto]. intros [<-|[]].
    eexists. split; [reflexivity|]. repeat split.
Qed.

Lemma alertReports_config m m' a p :
  configOf m' = configOf m -> alertReports m' a p -> alertReports m a p.
Proof.
  intros Hc (H1 & H2 & H3 & H). pose proof (nameOrUrl_config m m' Hc) as Hn.
  unfold configOf in Hc. injection Hc as Hid _ Hurl _ _ _.
  unfold alertReports. rewrite <- Hid, <- Hn, <- Hurl. tauto.
Qed.

Lemma retryLoop_alert_reports net f s attempts :
  forall m a,
    In a (retryLoop net f s attempts m).2 ->
    exists p, In p (probePoints net f s attempts) /\ alertReports m a p.
Proof.
  induction attempts as [|att rest IH]; intros m a; [intros []|].
  rewrite retryLoop_cons. cbn [probePoints].
  pose proof (attemptStep_alert_reports m f s att (net att) a) as Hstep.
  pose proof (attemptStep_breaks m f s att (net att)) as Hb.
  pose proof (attemptStep_config m f s att (net att)) as Hc.
  destruct (attemptStep m f s att (net att)) as [[m' al] brk].
  cbn [fst snd] in Hstep, Hb, Hc. subst brk.
  destruct (attemptBreaks att (net att)).
  - cbn [snd]. intros Hin. destruct (Hstep Hin) as (p & Hp & Hrep).
    exists p. rewrite Hp. split; [left; reflexivity|exact Hrep].
  - specialize (IH m' a).
    destruct (retryLoop net f s rest m') as [m'' al']. cbn [snd] in IH |- *.
    intros Hin. apply List.in_app_or in Hin as [Hin|Hin].
    + destruct (Hstep Hin) as (p & Hp & Hrep).
      exists p. rewrite Hp. split; [left; reflexivity|exact Hrep].
    + destruct (IH Hin) as (p & Hp & Hrep). exists p. split.
      * apply List.in_or_app. right. exact Hp.
      * eapply alertReports_config; [exact Hc|exact Hrep].
Qed.

(** X1. Every alert a check emits reports a point that this check recorded:
    it carries the monitor's id, display name (the url when there is no
    name) and url, and the status, latency, error and classification of that
    point, that is, the state after the change. An alert with an error
    message is a transport failure: status 0, from up to down. *)
Theorem alert_reports_recorded_point net s m f a :
  In a (checkOnce net s m f).2 ->
  (exists p, In p (checkPoints net s m f) /\ alertReports m a p)
  /\ Alert.nowUp a = statusIsUp (Alert.status a)
  /\ Alert.wasUp a <> Alert.nowUp a
  /\ (Alert.error a <> None ->
        Alert.status a = Some 0 /\ Alert.wasUp a = true /\ Alert.nowUp a = false).
Proof.
  intros Hin.
  assert (exists p, In p (checkPoints net s m f) /\ alertReports m a p) as Hp.
  { unfold checkOnce, checkPoints in *.
    destruct (negb (Monitor.enabled m) && negb f); [destruct Hin|].
    apply retryLoop_alert_reports, Hin. }
  assert (Alert.wasUp a <> Alert.nowUp a) as Hflip.
  { pose proof (proj2 (checkOnce_view net s m f)) as Hal.
    pose proof (transitions_flips (statusIsUp (Monitor.lastStatus m))
                  (map Point.up (checkPoints net s m f))) as Hfl.
    rewrite <- Hal in Hfl. rewrite List.Forall_forall in Hfl.
    apply (Hfl (alertFlip a)). apply List.in_map, Hin. }
  split; [exact Hp|]. destruct Hp as (p & Hpin & Hrep).
  assert (pointClassified p) as Hcl.
  { assert (Forall pointClassified (checkPoints net s m f)) as Hall.
    { unfold checkPoints. destruct (negb _ && negb _); [constructor|].
      apply probePoints_classified. }
    rewrite List.Forall_forall in Hall. apply Hall, Hpin. }
  destruct Hrep as (_ & _ & _ & Hst & _ & Herr & Hup).
  split; [rewrite Hst, Hup; exact Hcl|]. split; [exact Hflip|].
  intros He. rewrite Herr in He.
  assert (Point.status p = 0 /\ Point.up p = false) as [H0 Hdown].
  { unfold checkPoints in Hpin.
    destruct (negb _ && negb _); [destruct Hpin|].
    destruct (probePoints_shape net f s) as (downs & lastp & Hps & _ & Hd & _ & Hlast).
    rewrite Hps in Hpin. apply List.in_app_or in Hpin as [Hpin|[<-|[]]].
    - rewrite List.Forall_forall in Hd. destruct (Hd p Hpin) as (_ & Hnone & _).
      congruence.
    - destruct (Hlast He) as (_ & H0 & Hdown). split; assumption. }
  rewrite Hst, H0, Hup, Hdown. split; [reflexivity|]. split; [|reflexivity].
  rewrite Hup, Hdown in Hflip. destruct (Alert.wasUp a); congruence.
Qed.

(** ** The summary fields follow the newest history point *)

Lemma applyPoint_mirrors m p : mirrorsNewest (applyPoint m p).
Proof.
  intros q Hq. cbn in Hq. rewrite pushShift_last in Hq. injection Hq as <-.
  repeat split.
Qed.

Lemma attemptStep_mirrors m f s att a :
  mirrorsNewest m -> mirrorsNewest (attemptStep m f s att a).1.1.
Proof.
  intros Hm. rewrite attemptStep_monitor.
  destruct (attemptPoint f s att a); [apply applyPoint_mirrors|exact Hm].
Qed.

Lemma step_monitor_cases st ev k :
  monitors (step st ev) !! k = monitors st !! k
  \/ exists m f s att a,
       monitors st !! k = Some m
       /\ monitors (step st ev) !! k = Some (attemptStep m f s att a).1.1.
Proof.
  destruct ev as [id now|now|id now|now|n a]; cbn [step].
  - left. unfold timerTick. destruct (decide (id ∈ timers st)); [|reflexivity].
    destruct (monitors st !! id); [|reflexivity].
    rewrite startCheck_monitors. reflexivity.
  - left. unfold sweepTick. rewrite foldl_monitors; [reflexivity|].
    intros s km. apply forceCheck_monitors.
  - left. rewrite forceCheck_monitors. reflexivity.
  - left. unfold forceCheckAllDown. rewrite foldl_monitors; [reflexivity|].
    intros s km. apply startCheck_monitors.
  - unfold settle. destruct (inflight st !! n) as [tk|]; [|left; reflexivity].
    destruct (taskPending tk) as [|att rest]; [left; reflexivity|].
    destruct (monitors st !! taskMonitor tk) as [m|] eqn:Hm; [|left; reflexivity].
    destruct (decide (taskMonitor tk = k)) as [<-|Hne].
    + right. exists m, (taskForced tk), (taskStarted tk), att, a.
      split; [exact Hm|].
      destruct (attemptStep m (taskForced tk) (taskStarted tk) att a)
        as [[m' al] brk].
      cbn [monitors fst]. apply lookup_insert_eq.
    + left.
      destruct (attemptStep m (taskForced tk) (taskStarted tk) att a)
        as [[m' al] brk].
      cbn [monitors]. apply lookup_insert_ne. exact Hne.
Qed.

Lemma run_snoc st evs ev : run st (evs ++ [ev]) = step (run st evs) ev.
Proof. unfold run. rewrite foldl_app. reflexivity. Qed.

(** X2. After a check that runs, the newest history point is a point of
    this check, and [lastStatus], [lastLatency], [lastChecked] and
    [lastError] are the ones of that point. On the event loop, if every
    monitor's summary fields are those of its newest history point, this
    stays so whatever ticks, sweeps, forced checks and settlements follow. *)
Theorem summary_mirrors_newest_point (st : State) (evs : list Event) :
  map_Forall (fun _ m => mirrorsNewest m) (monitors st) ->
  map_Forall (fun _ m => mirrorsNewest m) (monitors (run st evs))
  /\ (forall net s m f,
        Monitor.enabled m || f = true ->
        exists p,
          last (checkPoints net s m f) = Some p
          /\ last (Monitor.history (checkOnce net s m f).1) = Some p
          /\ mirrorsNewest (checkOnce net s m f).1).
Proof.
  intros Hst. split.
  - induction evs as [|ev evs IH] using rev_ind; [exact Hst|].
    rewrite run_snoc. intros k m' Hk.
    destruct (step_monitor_cases (run st evs) ev k)
      as [Heq|(m & f & s & att & a & Hm & Hm')].
    + rewrite Heq in Hk. exact (IH k m' Hk).
    + rewrite Hm' in Hk. injection Hk as <-.
      apply attemptStep_mirrors. exact (IH k m Hm).
  - intros net s m f Hrun.
    destruct (checkOnce_shape net s m f Hrun)
      as (downs & lastp & Hps & _ & _ & _ & _ & _ & Hm').
    exists lastp. rewrite Hps, Hm'. split; [apply last_snoc|].
    split; [apply pushShift_last|apply applyPoint_mirrors].
Qed.

(** ** Events of the loop never touch the registry's configuration *)

Lemma step_timers st ev : timers (step st ev) = timers st.
Proof.
  assert (forall key m f now s, timers (startCheck key m f now s) = timers s) as Hsc.
  { intros. unfold startCheck. destruct (negb _ && negb _); reflexivity. }
  assert (forall id now s, timers (forceCheck id now s) = timers s) as Hfc.
  { intros. unfold forceCheck. destruct (monitors s !! id); [apply Hsc|reflexivity]. }
  assert (forall (A : Type) (g : State -> A -> State) (l : list A),
            (forall s x, timers (g s x) = timers s) ->
            forall s, timers (foldl g s l) = timers s) as Hfold.
  { intros A g l Hg. induction l as [|x l IH]; intros s; [reflexivity|].
    cbn [foldl]. rewrite IH. apply Hg. }
  destruct ev as [id now|now|id now|now|n a]; cbn [step].
  - unfold timerTick. destruct (decide (id ∈ timers st)); [|reflexivity].
    destruct (monitors st !! id); [apply Hsc|reflexivity].
  - unfold sweepTick. apply Hfold. intros. apply Hfc.
  - apply Hfc.
  - unfold forceCheckAllDown. apply Hfold. intros. apply Hsc.
  - unfold settle. destruct (inflight st !! n) as [tk|]; [|reflexivity].
    destruct (taskPending tk); [reflexivity|].
    destruct (monitors st !! taskMonitor tk); [|reflexivity].
    destruct (attemptStep _ _ _ _ _) as [[m' al] brk]. reflexivity.
Qed.

Lemma run_timers evs st : timers (run st evs) = timers st.
Proof.
  revert st. induction evs as [|ev evs IH]; intros st; [reflexivity|].
  rewrite run_cons, IH. apply step_timers.
Qed.

(** X3. Ticks, sweeps, forced checks and settlements never arm or cancel a
    timer, never add or remove a monitor, and never change a monitor's id,
    name, url, interval, enabled flag or forceCheck flag. *)
Theorem events_keep_registry_configuration (st : State) (evs : list Event) :
  timers (run st evs) = timers st
  /\ dom (monitors (run st evs)) = dom (monitors st)
  /\ forall k, configOf <$> monitors (run st evs) !! k = configOf <$> monitors st !! k.
Proof.
  assert (forall k, configOf <$> monitors (run st evs) !! k
                    = configOf <$> monitors st !! k) as Hcfg.
  { induction evs as [|ev evs IH] using rev_ind; [reflexivity|].
    intros k. rewrite run_snoc.
    destruct (step_monitor_cases (run st evs) ev k)
      as [Heq|(m & f & s & att & a & Hm & Hm')].
    - rewrite Heq. apply IH.
    - rewrite Hm'. rewrite <- IH, Hm. cbn. f_equal. apply attemptStep_config. }
  split; [apply run_timers|]. split; [|exact Hcfg].
  apply set_eq. intros k. rewrite !elem_of_dom.
  specialize (Hcfg k).
  destruct (monitors (run st evs) !! k), (monitors st !! k); cbn in Hcfg;
    try discriminate; split; intros [? ?]; eauto; discriminate.
Qed.

(** ** Without a timer no scheduled check starts *)

Lemma filter_length_delete {A : Type} (P : A -> bool) (n : nat) (l : list A) :
  (length (List.filter P (delete n l)) <= length (List.filter P l))%nat.
Proof.
  revert n. induction l as [|x l IH]; intros n; [destruct n; cbn; lia|].
  destruct n as [|n]; cbn.
  - destruct (P x); cbn; lia.
  - specialize (IH n). destruct (P x); cbn; [apply le_n_S|]; exact IH.
Qed.

Lemma filter_length_insert {A : Type} (P : A -> bool) (n : nat) (l : list A) x y :
  l !! n = Some x -> P y = P x ->
  length (List.filter P (<[n := y]> l)) = length (List.filter P l).
Proof.
  revert n. induction l as [|z l IH]; intros n Hn Hxy; [destruct n; discriminate|].
  destruct n as [|n]; cbn.
  - cbn in Hn. injection Hn as ->. rewrite Hxy. destruct (P x); reflexivity.
  - cbn in Hn. specialize (IH n Hn Hxy). destruct (P z); cbn; [f_equal|]; exact IH.
Qed.

Lemma unforcedOf_startCheck_forced id key m now st :
  unforcedOf id (startCheck key m true now st) = unforcedOf id st.
Proof.
  rewrite startCheck_forced. unfold unforcedOf. cbn [inflight].
  rewrite List.filter_app. cbn. rewrite andb_false_r. apply app_nil_r.
Qed.

Lemma unforcedOf_forceCheck id id' now st :
  unforcedOf id (forceCheck id' now st) = unforcedOf id st.
Proof.
  unfold forceCheck. destruct (monitors st !! id'); [|reflexivity].
  apply unforcedOf_startCheck_forced.
Qed.

Lemma unforcedOf_foldl {A : Type} id (g : State -> A -> State) (l : list A) :
  (forall s x, unforcedOf id (g s x) = unforcedOf id s) ->
  forall st, unforcedOf id (foldl g st l) = unforcedOf id st.
Proof.
  intros Hg. induction l as [|x l IH]; intros st; [reflexivity|].
  cbn [foldl]. rewrite IH. apply Hg.
Qed.

Lemma step_unforced id st ev :
  id ∉ timers st ->
  (length (unforcedOf id (step st ev)) <= length (unforcedOf id st))%nat.
Proof.
  intros Hno. destruct ev as [id' now|now|id' now|now|n a]; cbn [step].
  - unfold timerTick. destruct (decide (id' ∈ timers st)) as [Hin|]; [|lia].
    destruct (monitors st !! id') as [m|]; [|lia].
    unfold startCheck. destruct (negb _ && negb _); [lia|].
    unfold unforcedOf. cbn [inflight]. rewrite List.filter_app. cbn.
    destruct (String.eqb_spec id' id) as [->|_]; [contradiction|].
    cbn. rewrite app_nil_r. lia.
  - unfold sweepTick. rewrite unforcedOf_foldl; [lia|].
    intros s km. apply unforcedOf_forceCheck.
  - rewrite unforcedOf_forceCheck. lia.
  - unfold forceCheckAllDown. rewrite unforcedOf_foldl; [lia|].
    intros s km. apply unforcedOf_startCheck_forced.
  - unfold settle. destruct (inflight st !! n) as [tk|] eqn:Htk; [|lia].
    destruct (taskPending tk) as [|att rest]; [lia|].
    destruct (monitors st !! taskMonitor tk) as [m|]; [|lia].
    destruct (attemptStep m (taskForced tk) (taskStarted tk) att a)
      as [[m' al] brk].
    unfold unforcedOf. cbn [inflight].
    destruct (brk || bool_decide (rest = [])).
    + apply filter_length_delete.
    + erewrite filter_length_insert; [lia|exact Htk|reflexivity].
Qed.

(** X4. For a monitor without an armed timer (never started, disabled, or
    stopped) no scheduled check is ever started: whatever ticks, sweeps,
    forced checks and settlements follow, its unforced in-flight checks can
    only finish, never grow in number. Checks already in flight when the
    timer was stopped are not cancelled. *)
Theorem no_timer_no_scheduled_check (st : State) (id : string) (evs : list Event) :
  id ∉ timers st ->
  (length (unforcedOf id (run st evs)) <= length (unforcedOf id st))%nat
  /\ (forall now, inflight (step st (EvTick id now)) = inflight st)
  /\ (forall st0, inflight (stopTimer id st0) = inflight st0
                  /\ id ∉ timers (stopTimer id st0)).
Proof.
  intros Hno. split; [|split].
  - revert st Hno. induction evs as [|ev evs IH]; intros st Hno; [cbn; lia|].
    rewrite run_cons.
    assert (id ∉ timers (step st ev)) as Hno' by (rewrite step_timers; exact Hno).
    pose proof (IH _ Hno'). pose proof (step_unforced id st ev Hno). lia.
  - intros now. cbn [step]. unfold timerTick.
    destruct (decide (id ∈ timers st)); [contradiction|reflexivity].
  - intros st0. split; [reflexivity|]. cbn. set_solver.
Qed.

(** ** Health after a check *)



(** ** Loading *)









(** ** Saving and loading back *)

Lemma loadMonitor_toRaw ops fresh m :
  persistable m -> loadMonitor ops fresh (toRaw m) = Some m.
Proof.
  intros (Hid & Hurl & Hname & Herr & (q & Hq & Hgt) & Hlen & Hfc).
  unfold loadMonitor, toRaw. cbn.
  destruct (String.eqb_spec (Monitor.url m) "") as [|_]; [contradiction|].
  destruct (String.eqb_spec (Monitor.id m) "") as [|_]; [contradiction|].
  assert (orNull (Monitor.name m) = Monitor.name m) as ->.
  { unfold orNull. destruct (Monitor.name m) as [t|]; [|reflexivity].
    destruct (String.eqb_spec t ""); [congruence|reflexivity]. }
  assert (orNull (Monitor.lastError m) = Monitor.lastError m) as ->.
  { unfold orNull. destruct (Monitor.lastError m) as [t|]; [|reflexivity].
    destruct (String.eqb_spec t ""); [congruence|reflexivity]. }
  assert (loadInterval ops (jsonNumber (Monitor.intervalMs m)) = Monitor.intervalMs m) as ->.
  { rewrite Hq. unfold loadInterval. cbn. rewrite Hgt. reflexivity. }
  rewrite !sliceLast_short
    by (try rewrite sliceLast_short by exact Hlen; exact Hlen).
  rewrite !orZero_id. destruct m; cbn in *. subst. reflexivity.
Qed.

Lemma loadEntries_toRaw ops fresh (ml : list monitor) :
  Forall persistable ml ->
  forall (h : nat -> nat) acc,
    foldl (loadEntry ops fresh) acc
      (imap (fun i x => (h i, x)) (map (fun m => Some (toRaw m)) ml))
    = foldl (fun a m => <[Monitor.id m := m]> a) acc ml.
Proof.
  induction 1 as [|m ml Hm _ IH]; intros h acc; [reflexivity|].
  cbn [map imap foldl]. unfold loadEntry at 2. cbn [fst snd mbind option_bind].
  rewrite loadMonitor_toRaw by exact Hm.
  apply (IH (h ∘ S)).
Qed.

Lemma foldl_insert_lookup (ml : list monitor) :
  forall (acc : gmap string monitor) k,
    (forall m m', In m ml -> In m' ml -> Monitor.id m = Monitor.id m' -> m = m') ->
    foldl (fun a m => <[Monitor.id m := m]> a) acc ml !! k =
      match List.find (fun m => String.eqb (Monitor.id m) k) ml with
      | Some m => Some m
      | None => acc !! k
      end.
Proof.
  induction ml as [|m ml IH]; intros acc k Hfun; [reflexivity|].
  cbn [foldl List.find]. rewrite IH
    by (intros a b Ha Hb; apply Hfun; right; assumption).
  destruct (String.eqb_spec (Monitor.id m) k) as [<-|Hne].
  - destruct (List.find _ ml) as [m'|] eqn:Hfind; [|apply lookup_insert_eq].
    apply List.find_some in Hfind as [Hin Heq]. apply String.eqb_eq in Heq.
    f_equal. apply Hfun; [right; exact Hin|left; reflexivity|exact Heq].
  - destruct (List.find _ ml); [reflexivity|]. apply lookup_insert_ne, Hne.
Qed.

(** X7. Saving and loading back is the identity on a registry in which
    every monitor sits under its own id and is persistable: non-empty id and
    url, a name and a last error that are not the empty string, a finite
    interval above 1000 ms, at most 200 history points and no forceCheck
    flag. The order in which the store returns the records does not
    matter. *)
Theorem save_then_load_restores (ops : StringOps) (fresh : nat -> string)
    (ms : gmap string monitor) (data : list RawMonitor) :
  map_Forall (fun k m => Monitor.id m = k /\ persistable m) ms ->
  data ≡ₚ (map_to_list (saveMonitors ms)).*2 ->
  loadEntries ops fresh (Some <$> data) ∅ = ms.
Proof.
  intros Hms Hperm.
  assert (exists ml, data = map toRaw ml /\ ml ≡ₚ (map_to_list ms).*2) as (ml & -> & Hml).
  { unfold saveMonitors in Hperm. rewrite map_to_list_fmap in Hperm.
    rewrite <- list_fmap_compose in Hperm.
    change (snd ∘ prod_map id toRaw) with (toRaw ∘ (snd : string * monitor -> monitor)) in Hperm.
    rewrite list_fmap_compose in Hperm.
    apply Permutation_map_inv in Hperm as (ml & Heq & Hp).
    exists ml. split; [exact Heq|]. symmetry. exact Hp. }
  assert (forall m, In m ml <-> ms !! Monitor.id m = Some m) as Hin.
  { intros m. rewrite <- list_elem_of_In, Hml, list_elem_of_fmap. split.
    - intros ([k m'] & -> & Hk). apply elem_of_map_to_list in Hk. cbn.
      rewrite (proj1 (Hms k m' Hk)). exact Hk.
    - intros Hk. exists (Monitor.id m, m). split; [reflexivity|].
      apply elem_of_map_to_list, Hk. }
  unfold loadEntries.
  change (Some <$> map toRaw ml) with (map Some (map toRaw ml)).
  rewrite List.map_map.
  rewrite (loadEntries_toRaw ops fresh ml) with (h := fun i => i).
  - apply map_eq. intros k. rewrite foldl_insert_lookup.
    + destruct (List.find _ ml) as [m|] eqn:Hfind.
      * apply List.find_some in Hfind as [Hm Heq]. apply String.eqb_eq in Heq.
        subst k. symmetry. apply Hin, Hm.
      * rewrite lookup_empty. destruct (ms !! k) as [m|] eqn:Hk; [|reflexivity].
        pose proof (proj1 (Hms k m Hk)) as Hid.
        assert (In m ml) as Hm by (apply Hin; rewrite Hid; exact Hk).
        pose proof (List.find_none _ _ Hfind m Hm) as Hf. cbn in Hf.
        rewrite Hid, String.eqb_refl in Hf. discriminate.
    + intros m m' Hm Hm' Heq. apply Hin in Hm, Hm'. rewrite Heq in Hm. congruence.
  - apply List.Forall_forall. intros m Hm. apply Hin in Hm.
    exact (proj2 (Hms _ m Hm)).
Qed.

(** ** Deleting, patching, resetting and creating *)

Lemma startTimer_enabled id now st m :
  monitors st !! id = Some m ->
  Monitor.enabled m = true ->
  startTimer id now st =
    mkState (monitors st) (timers st ∖ {[id]} ∪ {[id]})
      (inflight st ++ [scheduledTask now id]) (alertLog st).
Proof.
  intros Hm Hen. unfold startTimer. cbn [stopTimer monitors].
  rewrite Hm, Hen. cbn [negb]. rewrite startCheck_enabled by exact Hen.
  reflexivity.
Qed.


Lemma patchMonitor_id ops m body m' :
  patchMonitor ops m body = Ok m' -> Monitor.id m' = Monitor.id m.
Proof.
  unfold patchMonitor.
  destruct (if isUndefined (pName body) then _ else _); [|discriminate].
  intros [= <-]. reflexivity.
Qed.

(** X9. A patch of an unknown id, or one whose name cannot be trimmed,
    changes nothing. A patch that succeeds stores the patched monitor under
    the same id and reconciles its timer: when the monitor is enabled
    afterwards its timer is armed and one new unforced check is started at
    once, whatever the patch changed and whatever checks are already in
    flight; when it is disabled afterwards its timer is gone and no check is
    started, while checks in flight stay. Other monitors and timers are
    untouched. *)
Theorem patch_reconciles_timer (ops : StringOps) (id : string)
    (body : PatchBody) (now : Z) (st : State) (m : monitor) :
  monitors st !! id = Some m ->
  Monitor.id m = id ->
  let st' := (patchHandler ops id body now st).2 in
  (forall m', patchMonitor ops m body = Ok m' ->
     (patchHandler ops id body now st).1 = Ok m'
     /\ monitors st' !! id = Some m'
     /\ (forall k, k <> id ->
           monitors st' !! k = monitors st !! k
           /\ (k ∈ timers st' <-> k ∈ timers st))
     /\ (Monitor.enabled m' = true ->
           id ∈ timers st'
           /\ inflight st' = inflight st ++ [scheduledTask now id])
     /\ (Monitor.enabled m' = false ->
           (id ∉ timers st') /\ inflight st' = inflight st))
  /\ (patchMonitor ops m body = Threw ->
        patchHandler ops id body now st = (Threw, st))
  /\ (forall st0, monitors st0 !! id = None ->
        patchHandler ops id body now st0 = (NotFound, st0)).
Proof.
  intros Hm Hid st'. subst st'. split; [|split].
  - intros m' Hp. unfold patchHandler. rewrite Hm, Hp. cbn [fst snd].
    rewrite (patchMonitor_id ops m body m' Hp), Hid.
    split; [reflexivity|].
    destruct (Monitor.enabled m') eqn:Hen.
    + rewrite (startTimer_enabled id now (setMonitor id m' st) m')
        by (try apply lookup_insert_eq; exact Hen).
      cbn [setMonitor monitors timers inflight].
      split; [apply lookup_insert_eq|]. split.
      { intros k Hne. split; [apply lookup_insert_ne; congruence|set_solver]. }
      split; [intros _; split; [set_solver|reflexivity]|discriminate].
    + cbn [stopTimer setMonitor monitors timers inflight].
      split; [apply lookup_insert_eq|]. split.
      { intros k Hne. split; [apply lookup_insert_ne; congruence|set_solver]. }
      split; [discriminate|intros _; split; [set_solver|reflexivity]].
  - intros Hp. unfold patchHandler. rewrite Hm, Hp. reflexivity.
  - intros st0 Hnone. unfold patchHandler. rewrite Hnone. reflexivity.
Qed.


(** ** Bulk creation *)





(** ** Stored urls *)

Lemma asciiHasHttpScheme_prefixed s :
  asciiHasHttpScheme ("http://" ++ s) = true.
Proof. destruct s; vm_compute; reflexivity. Qed.

Lemma normalizeUrl_scheme trim0 strToNumber0 u :
  asciiHasHttpScheme
    (normalizeUrl (mkStringOps trim0 asciiHasHttpScheme strToNumber0) u) = true.
Proof.
  unfold normalizeUrl. cbn [trim hasHttpScheme].
  destruct (asciiHasHttpScheme (trim0 u)) eqn:E; [exact E|].
  apply asciiHasHttpScheme_prefixed.
Qed.

(** X12. With the scheme test [/^https?:\/\//i] (a case-insensitive prefix
    test), whatever [trim] and [Number] do: the url stored by a create and
    by an entry of a bulk create starts with [http://] or [https://], a
    patch keeps this so, and a create is accepted for every non-empty url
    string when no name is given (a bare host is never rejected). *)
Theorem stored_url_has_scheme (trim0 : string -> string)
    (strToNumber0 : string -> jsnum) :
  let ops := mkStringOps trim0 asciiHasHttpScheme strToNumber0 in
  (forall id body m,
      createMonitor ops id body = Ok m ->
      asciiHasHttpScheme (Monitor.url m) = true)
  /\ (forall id r name iv m,
        bulkMonitor ops id r name iv = Ok (Some m) ->
        asciiHasHttpScheme (Monitor.url m) = true)
  /\ (forall m body m',
        patchMonitor ops m body = Ok m' ->
        asciiHasHttpScheme (Monitor.url m) = true ->
        asciiHasHttpScheme (Monitor.url m') = true)
  /\ (forall id u iv,
        u <> ""%string ->
        exists m, createMonitor ops id (mkCreateBody JUndefined (JStr u) iv) = Ok m
                  /\ Monitor.url m = normalizeUrl ops u
                  /\ Monitor.name m = None).
Proof.
  intros ops. split; [|split; [|split]].
  - intros id body m. unfold createMonitor.
    destruct (cUrl body) as [| | | |u|]; try discriminate.
    destruct (String.eqb u ""); [discriminate|].
    destruct (normalizeName ops (cName body)); [|discriminate].
    intros [= <-]. apply normalizeUrl_scheme.
  - intros id r name iv m. unfold bulkMonitor.
    destruct (String.eqb (trim ops r) ""); [discriminate|].
    destruct (normalizeName ops name); [|discriminate].
    intros [= <-]. cbn.
    destruct (asciiHasHttpScheme (trim0 r)) eqn:E; [exact E|].
    apply asciiHasHttpScheme_prefixed.
  - intros m body m'. unfold patchMonitor.
    destruct (if isUndefined (pName body) then _ else _); [|discriminate].
    intros [= <-] Hm. cbn [Monitor.url].
    destruct (pUrl body) as [| | | |u|]; try exact Hm.
    destruct (String.eqb _ ""); [exact Hm|].
    apply normalizeUrl_scheme.
  - intros id u iv Hu. unfold createMonitor. cbn [cUrl cName cIntervalMs].
    destruct (String.eqb_spec u "") as [|_]; [contradiction|].
    eexists. split; [reflexivity|]. split; reflexivity.
Qed.

(** X13. A create that is rejected (no url string, or a name that cannot
    be trimmed) changes nothing. An accepted create stores the new monitor
    under its id, enabled, never checked, with an empty history; it arms the
    monitor's timer and starts one unforced check at once; the other
    monitors are untouched. *)
Theorem create_stores_and_starts (ops : StringOps) (id : string)
    (body : CreateBody) (now : Z) (st : State) :
  (createMonitor ops id body = BadRequest ->
     createHandler ops id body now st = (BadRequest, st))
  /\ (createMonitor ops id body = Threw ->
        createHandler ops id body now st = (Threw, st))
  /\ createMonitor ops id body <> NotFound
  /\ (forall m,
        createMonitor ops id body = Ok m ->
        let st' := (createHandler ops id body now st).2 in
        (createHandler ops id body now st).1 = Ok m
        /\ monitors st' !! id = Some m
        /\ Monitor.id m = id
        /\ Monitor.enabled m = true
        /\ Monitor.history m = []
        /\ getHealthStatus m = unknown
        /\ id ∈ timers st'
        /\ inflight st' = inflight st ++ [scheduledTask now id]
        /\ (forall k, k <> id ->
              monitors st' !! k = monitors st !! k
              /\ (k ∈ timers st' <-> k ∈ timers st))).
Proof.
  split; [|split; [|split]].
  - intros E. unfold createHandler. rewrite E. reflexivity.
  - intros E. unfold createHandler. rewrite E. reflexivity.
  - unfold createMonitor.
    destruct (cUrl body) as [| | | |u|]; try discriminate.
    destruct (String.eqb u ""); [discriminate|].
    destruct (normalizeName ops (cName body)); discriminate.
  - intros m E.
    assert (Monitor.id m = id /\ Monitor.enabled m = true
            /\ Monitor.history m = [] /\ getHealthStatus m = unknown)
      as (Hid & Hen & Hh & Hu).
    { unfold createMonitor in E.
      destruct (cUrl body) as [| | | |u|]; try discriminate.
      destruct (String.eqb u ""); [discriminate|].
      destruct (normalizeName ops (cName body)); [|discriminate].
      injection E as <-. repeat split. }
    unfold createHandler. rewrite E. cbn [fst snd].
    rewrite (startTimer_enabled id now (setMonitor id m st) m)
      by (try apply lookup_insert_eq; exact Hen).
    cbn [setMonitor monitors timers inflight].
    split; [reflexivity|]. split; [apply lookup_insert_eq|].
    split; [exact Hid|]. split; [exact Hen|]. split; [exact Hh|].
    split; [exact Hu|]. split; [set_solver|]. split; [reflexivity|].
    intros k Hne. split; [apply lookup_insert_ne; congruence|set_solver].
Qed.

(** ** The history slice of one monitor *)

Lemma Qtrunc_inject (n : Z) : Qtrunc (inject_Z n) = n.
Proof. unfold Qtrunc, inject_Z. cbn. apply Z.quot_1_r. Qed.

Lemma Qtrunc_opp_inject (n : Z) : Qtrunc (- inject_Z n) = - n.
Proof. unfold Qtrunc, inject_Z, Qopp. cbn. apply Z.quot_1_r. Qed.

Lemma sliceFrom_negative {A : Type} (k : nat) (l : list A) :
  (1 <= k)%nat -> sliceFrom (- Z.of_nat k) l = sliceLast k l.
Proof.
  intros Hk. unfold sliceFrom, sliceLast.
  destruct (Z.ltb_spec (- Z.of_nat k) 0); [|lia]. f_equal. lia.
Qed.

Lemma sliceFromNum_suffix {A : Type} (start : jsnum) (l : list A) :
  sliceFromNum start l `suffix_of` l.
Proof.
  destruct start as [q| | |]; cbn; try reflexivity; [|apply suffix_nil].
  unfold sliceFrom. destruct (Qtrunc q <? 0); apply suffix_drop.
Qed.

Lemma numTruthy_inject (n : Z) : n <> 0 -> numTruthy (Fin (inject_Z n)) = true.
Proof.
  intros Hn. cbn. unfold Qeq_bool, inject_Z. cbn.
  destruct (Z.eqb_spec (n * 1) (0 * 1)); [lia|reflexivity].
Qed.

Lemma numMin_inject (c n : Z) :
  numMin (inject_Z c) (Fin (inject_Z n)) = Fin (inject_Z (Z.min c n)).
Proof.
  cbn. unfold Qle_bool, inject_Z. cbn.
  destruct (Z.leb_spec (c * 1) (n * 1)); do 2 f_equal; lia.
Qed.

(** X14. The history returned with one monitor is always a suffix of the
    stored history. Without a usable [limit] (missing, 0 or not a number) it
    is the last 100 points; for a whole [limit] of at least 1 it is the last
    [min(limit, 200)] points; for a negative whole [limit] it is the history
    without its first [-limit] points. An unknown id is answered
    not-found. *)
Theorem monitor_history_slice (ops : StringOps) (limit : jsval) (m : monitor) :
  monitorHistoryView ops limit m `suffix_of` Monitor.history m
  /\ (numTruthy (toNumber ops limit) = false ->
        monitorHistoryView ops limit m = sliceLast 100 (Monitor.history m))
  /\ (forall n : Z,
        toNumber ops limit = Fin (inject_Z n) ->
        (1 <= n ->
           monitorHistoryView ops limit m =
             sliceLast (Z.to_nat (Z.min n 200)) (Monitor.history m))
        /\ (n < 0 ->
              monitorHistoryView ops limit m =
                drop (Z.to_nat (- n)) (Monitor.history m)))
  /\ (forall id st,
        monitors st !! id = None -> getMonitor ops limit id st = NotFound)
  /\ (forall id st,
        monitors st !! id = Some m ->
        getMonitor ops limit id st =
          Ok (m, getHealthStatus m, monitorHistoryView ops limit m)).
Proof.
  split; [apply sliceFromNum_suffix|]. split; [|split; [|split]].
  - intros Hf. unfold monitorHistoryView, queryLimit. rewrite Hf.
    change (Fin 100) with (Fin (inject_Z 100)).
    change 200%Q with (inject_Z 200). rewrite numMin_inject.
    cbn [numNeg sliceFromNum]. rewrite Qtrunc_opp_inject.
    change (- Z.min 200 100) with (- Z.of_nat 100).
    apply sliceFrom_negative. lia.
  - intros n Hn. unfold monitorHistoryView, queryLimit. rewrite Hn. split.
    + intros H1. rewrite numTruthy_inject by lia.
      change 200%Q with (inject_Z 200). rewrite numMin_inject.
      cbn [numNeg sliceFromNum]. rewrite Qtrunc_opp_inject.
      replace (- Z.min 200 n) with (- Z.of_nat (Z.to_nat (Z.min n 200))) by lia.
      apply sliceFrom_negative. lia.
    + intros Hneg. rewrite numTruthy_inject by lia.
      change 200%Q with (inject_Z 200). rewrite numMin_inject.
      cbn [numNeg sliceFromNum]. rewrite Qtrunc_opp_inject.
      unfold sliceFrom. destruct (Z.ltb_spec (- Z.min 200 n) 0); [lia|].
      f_equal. lia.
  - intros id st Hnone. unfold getMonitor. rewrite Hnone. reflexivity.
  - intros id st Hm. unfold getMonitor. rewrite Hm. reflexivity.
Qed.

(** ** Recent events *)

Lemma insertDesc_perm e l : insertDesc e l ≡ₚ e :: l.
Proof.
  induction l as [|y l IH]; [reflexivity|]. cbn.
  destruct (evTimestamp y <=? evTimestamp e); [reflexivity|].
  rewrite IH. apply Permutation_swap.
Qed.

Lemma sortDesc_perm l : sortDesc l ≡ₚ l.
Proof.
  induction l as [|e l IH]; [reflexivity|]. cbn.
  rewrite insertDesc_perm, IH. reflexivity.
Qed.

Lemma newestFirst_weaken (e e' : EventView) l :
  evTimestamp e <= evTimestamp e' ->
  Forall (fun later => evTimestamp later <= evTimestamp e) l ->
  Forall (fun later => evTimestamp later <= evTimestamp e') l.
Proof.
  intros He H. eapply Forall_impl; [exact H|]. intros x Hx. cbn in Hx |- *. lia.
Qed.

Lemma insertDesc_sorted e l : newestFirst l -> newestFirst (insertDesc e l).
Proof.
  induction l as [|y l IH]; [intros _; cbn; split; [constructor|exact I]|].
  intros [Hy Hl]. cbn [insertDesc].
  destruct (Z.leb_spec (evTimestamp y) (evTimestamp e)) as [Hle|Hgt].
  - cbn. split; [|split; assumption].
    constructor; [exact Hle|]. eapply newestFirst_weaken; [exact Hle|exact Hy].
  - cbn. split; [|apply IH, Hl].
    rewrite insertDesc_perm. constructor; [lia|exact Hy].
Qed.

Lemma sortDesc_sorted l : newestFirst (sortDesc l).
Proof.
  induction l as [|e l IH]; [exact I|]. cbn. apply insertDesc_sorted, IH.
Qed.

Lemma newestFirst_take n l : newestFirst l -> newestFirst (take n l).
Proof.
  revert n. induction l as [|e l IH]; intros n; [destruct n; intros; exact I|].
  destruct n as [|n]; [intros; exact I|]. cbn. intros [He Hl].
  split; [apply Forall_take, He|apply IH, Hl].
Qed.

Lemma sliceToNum_take {A : Type} (stop : jsnum) (l : list A) :
  exists k, sliceToNum stop l = take k l.
Proof.
  destruct stop as [q| | |]; cbn.
  - destruct (Qtrunc q <? 0); eexists; reflexivity.
  - exists 0%nat. reflexivity.
  - exists (length l). symmetry. apply take_ge. lia.
  - exists 0%nat. reflexivity.
Qed.

Lemma monitorEvents_length m : (length (monitorEvents m) <= 10)%nat.
Proof.
  unfold monitorEvents. rewrite length_map, sliceLast_length. lia.
Qed.

Lemma monitorEvents_In m e :
  In e (monitorEvents m) ->
  exists h, In h (Monitor.history m) /\ isNotable h = true /\ e = toEvent m h.
Proof.
  unfold monitorEvents. intros Hin.
  apply List.in_map_iff in Hin as (h & <- & Hin). exists h.
  assert (In h (List.filter isNotable (Monitor.history m))) as Hf.
  { unfold sliceLast in Hin. apply list_elem_of_In in Hin.
    apply list_elem_of_In. eapply subseteq_drop; exact Hin. }
  apply List.filter_In in Hf as [Hh Hn]. repeat split; assumption.
Qed.

Lemma filter_length_take {A : Type} (P : A -> bool) (k : nat) (l : list A) :
  (length (List.filter P (take k l)) <= length (List.filter P l))%nat.
Proof.
  revert k. induction l as [|x l IH]; intros k; [destruct k; cbn; lia|].
  destruct k as [|k]; cbn; [lia|].
  specialize (IH k). destruct (P x); cbn; lia.
Qed.

Lemma filter_length_perm {A : Type} (P : A -> bool) (l l' : list A) :
  l ≡ₚ l' -> length (List.filter P l) = length (List.filter P l').
Proof.
  induction 1 as [|x l l' _ IH|x y l|l l' l'' _ IH1 _ IH2]; cbn.
  - reflexivity.
  - destruct (P x); cbn; lia.
  - destruct (P x), (P y); reflexivity.
  - lia.
Qed.

Lemma events_of_other_monitor id m :
  Monitor.id m <> id ->
  List.filter (fun e => String.eqb (evMonitorId e) id) (monitorEvents m) = [].
Proof.
  intros Hne. unfold monitorEvents.
  induction (sliceLast 10 (List.filter isNotable (Monitor.history m))) as [|h l IH];
    [reflexivity|].
  cbn. destruct (String.eqb_spec (Monitor.id m) id); [contradiction|exact IH].
Qed.

Lemma events_per_monitor id (ms : list monitor) :
  List.NoDup (map Monitor.id ms) ->
  (length (List.filter (fun e => String.eqb (evMonitorId e) id)
             (concat (map monitorEvents ms))) <= 10)%nat.
Proof.
  induction ms as [|m ms IH]; intros Hnd; [cbn; lia|].
  inversion Hnd as [|? ? Hnotin Hnd']; subst. cbn [map concat].
  rewrite List.filter_app, length_app.
  destruct (String.eqb_spec (Monitor.id m) id) as [Heq|Hne].
  - assert (List.filter (fun e => String.eqb (evMonitorId e) id)
              (concat (map monitorEvents ms)) = []) as ->.
    { clear -Hnotin Heq. induction ms as [|m' ms IH]; [reflexivity|].
      cbn [map concat]. rewrite List.filter_app.
      rewrite events_of_other_monitor, IH.
      - reflexivity.
      - intros Hin. apply Hnotin. right. exact Hin.
      - intros Heq'. apply Hnotin. left. congruence. }
    cbn [length].
    pose proof (monitorEvents_length m) as Hlen.
    pose proof (List.filter_length_le
                  (fun e => String.eqb (evMonitorId e) id) (monitorEvents m)).
    lia.
  - rewrite events_of_other_monitor by exact Hne. cbn [length].
    apply IH, Hnd'.
Qed.

(** X15. The recent events are sorted by decreasing timestamp; each is a
    history point of one of the monitors that was forced, retried
    ([attempt > 1]) or carries an error message, shown with that monitor's
    id and name; they are the first entries of the sorted list of all such
    events, where a monitor contributes its last 10 at most, so no monitor
    (ids being distinct) has more than 10 events in the answer. Without a
    usable [limit] at most 50 events are returned, and for a whole [limit]
    of at least 1 at most [min(limit, 100)]. *)
Theorem recent_events_sorted_and_bounded (ops : StringOps) (limit : jsval)
    (ms : list monitor) :
  let evs := recentEvents ops limit ms in
  newestFirst evs
  /\ (forall e, In e evs ->
        exists m h,
          In m ms /\ In h (Monitor.history m) /\ isNotable h = true
          /\ e = toEvent m h)
  /\ (exists k all,
        all ≡ₚ concat (map monitorEvents ms)
        /\ newestFirst all
        /\ evs = take k all)
  /\ (List.NoDup (map Monitor.id ms) ->
        forall id,
          (length (List.filter (fun e => String.eqb (evMonitorId e) id) evs)
           <= 10)%nat)
  /\ (numTruthy (toNumber ops limit) = false -> (length evs <= 50)%nat)
  /\ (forall n : Z,
        toNumber ops limit = Fin (inject_Z n) -> 1 <= n ->
        (length evs <= Z.to_nat (Z.min n 100))%nat).
Proof.
  intros evs. subst evs. unfold recentEvents.
  set (all := sortDesc (concat (map monitorEvents ms))).
  assert (all ≡ₚ concat (map monitorEvents ms)) as Hperm by apply sortDesc_perm.
  assert (newestFirst all) as Hsorted by apply sortDesc_sorted.
  destruct (sliceToNum_take (queryLimit ops 100 50 limit) all) as [k Hk].
  split; [rewrite Hk; apply newestFirst_take, Hsorted|].
  split.
  { intros e He. rewrite Hk in He.
    assert (In e (concat (map monitorEvents ms))) as Hin.
    { apply list_elem_of_In. rewrite <- Hperm.
      apply (subseteq_take k all). apply list_elem_of_In. exact He. }
    apply List.in_concat in Hin as (l & Hl & Hin).
    apply List.in_map_iff in Hl as (m & <- & Hm).
    destruct (monitorEvents_In m e Hin) as (h & Hh & Hn & Heq).
    exists m, h. repeat split; assumption. }
  split; [exists k, all; repeat split; assumption|].
  split.
  { intros Hnd id. rewrite Hk.
    pose proof (filter_length_take (fun e => String.eqb (evMonitorId e) id) k all).
    pose proof (filter_length_perm (fun e => String.eqb (evMonitorId e) id) _ _ Hperm).
    pose proof (events_per_monitor id ms Hnd). lia. }
  split.
  - intros Hf. unfold queryLimit. rewrite Hf.
    change (Fin 50) with (Fin (inject_Z 50)).
    change 100%Q with (inject_Z 100). rewrite numMin_inject.
    cbn [sliceToNum]. rewrite Qtrunc_inject.
    change (Z.min 100 50 <? 0) with false. cbv iota zeta.
    rewrite length_take. change (Z.to_nat (Z.min 100 50)) with 50%nat. lia.
  - intros n Hn H1. unfold queryLimit. rewrite Hn.
    rewrite numTruthy_inject by lia.
    change 100%Q with (inject_Z 100). rewrite numMin_inject.
    cbn [sliceToNum]. rewrite Qtrunc_inject.
    destruct (Z.ltb_spec (Z.min 100 n) 0); [lia|].
    rewrite length_take. lia.
Qed.

(** ** The statistics and the manual sweep *)

Lemma countIf_split (P : monitor -> bool) (ms : list monitor) :
  countIf P ms + countIf (fun m => negb (P m)) ms = Z.of_nat (length ms).
Proof.
  unfold countIf. induction ms as [|m ms IH]; [reflexivity|].
  cbn [List.filter negb]. destruct (P m); cbn [negb length] in *; lia.
Qed.

Lemma countIf_le (P R : monitor -> bool) (ms : list monitor) :
  (forall m, In m ms -> P m = true -> R m = true) ->
  countIf P ms <= countIf R ms.
Proof.
  unfold countIf. induction ms as [|m ms IH]; intros H; [reflexivity|].
  assert (forall m', In m' ms -> P m' = true -> R m' = true) as H'
    by (intros m' Hm'; apply H; right; exact Hm').
  specialize (IH H'). specialize (H m (or_introl eq_refl)).
  cbn [List.filter]. destruct (P m) eqn:HP.
  - rewrite (H eq_refl). cbn [length]. lia.
  - destruct (R m); cbn [length]; lia.
Qed.

Lemma countIf_nonneg (P : monitor -> bool) (ms : list monitor) :
  0 <= countIf P ms.
Proof. unfold countIf. lia. Qed.

Lemma isCritical_down (m : monitor) :
  isCritical m = true ->
  negb (statusIsUp (Monitor.lastStatus m)) = true
  /\ 2 < Monitor.consecutiveFailures m
  /\ exists t, Monitor.lastChecked m = Some t /\ t <> 0.
Proof.
  unfold isCritical, getHealthStatus.
  destruct (Monitor.lastChecked m) as [t|]; [|discriminate].
  destruct (Z.eqb_spec t 0); [discriminate|].
  destruct (statusIsUp (Monitor.lastStatus m)); [discriminate|].
  destruct (Z.ltb_spec 2 (Monitor.consecutiveFailures m)); [|discriminate].
  intros _. split; [reflexivity|]. split; [assumption|].
  exists t. split; [reflexivity|assumption].
Qed.

(** X16. The counts of [/api/stats]. [down] is the number of monitors whose
    [lastStatus] is not in [200,400), so a monitor that was never checked
    ([lastStatus] null) is counted as down. [up] and [down], and [enabled]
    and [disabled], split the registry. Every critical monitor is among the
    down ones and has at least three consecutive failures. With no monitor
    registered the overall uptime is [0 / 0], not a number. *)
Theorem stats_counts (ms : list monitor) :
  let s := getStats ms in
  sDown s = countIf (fun m => negb (statusIsUp (Monitor.lastStatus m))) ms
  /\ sDisabled s = countIf (fun m => negb (Monitor.enabled m)) ms
  /\ 0 <= sUp s <= sTotal s
  /\ 0 <= sEnabled s <= sTotal s
  /\ 0 <= sCritical s <= sDown s
  /\ sCritical s <= countIf (fun m => 2 <? Monitor.consecutiveFailures m) ms
  /\ countIf (fun m => match Monitor.lastStatus m with
                       | None => true
                       | Some _ => false
                       end) ms <= sDown s
  /\ (ms = [] -> PrimFloat.is_nan (sOverallUptime s) = true).
Proof.
  intros s. subst s. unfold getStats. cbn [sTotal sUp sDown sEnabled sDisabled
    sCritical sOverallUptime].
  pose proof (countIf_split (fun m => statusIsUp (Monitor.lastStatus m)) ms) as Hup.
  pose proof (countIf_split Monitor.enabled ms) as Hen.
  pose proof (countIf_nonneg (fun m => statusIsUp (Monitor.lastStatus m)) ms).
  pose proof (countIf_nonneg (fun m => negb (statusIsUp (Monitor.lastStatus m))) ms).
  pose proof (countIf_nonneg Monitor.enabled ms).
  pose proof (countIf_nonneg (fun m => negb (Monitor.enabled m)) ms).
  pose proof (countIf_nonneg isCritical ms).
  assert (countIf isCritical ms
          <= countIf (fun m => negb (statusIsUp (Monitor.lastStatus m))) ms) as Hc.
  { apply countIf_le. intros m _ Hm. apply (isCritical_down m Hm). }
  assert (countIf isCritical ms
          <= countIf (fun m => 2 <? Monitor.consecutiveFailures m) ms) as Hc3.
  { apply countIf_le. intros m _ Hm.
    destruct (isCritical_down m Hm) as (_ & Hthree & _).
    apply Z.ltb_lt. exact Hthree. }
  assert (countIf (fun m => match Monitor.lastStatus m with
                            | None => true
                            | Some _ => false
                            end) ms
          <= countIf (fun m => negb (statusIsUp (Monitor.lastStatus m))) ms) as Hn.
  { apply countIf_le. intros m _ Hm.
    destruct (Monitor.lastStatus m); [discriminate|reflexivity]. }
  split; [lia|]. split; [lia|]. split; [lia|]. split; [lia|].
  split; [lia|]. split; [exact Hc3|]. split; [lia|].
  intros ->. vm_compute. reflexivity.
Qed.

(** X17. The route [/api/monitors/force-check-down] starts the same forced
    checks as a tick of the 30 s sweep, one per enabled monitor whose
    [lastStatus] is outside [200,400), when every monitor is stored under its
    own id; the number it answers is the number of checks it started, and it
    changes neither the registry nor the timers. *)
Theorem force_check_down_is_a_sweep (now : Z) (st : State) :
  wellKeyed st ->
  let st' := forceCheckAllDown now st in
  st' = sweepTick now st
  /\ monitors st' = monitors st
  /\ timers st' = timers st
  /\ inflight st' = inflight st ++ map (forcedTask now) (downMonitors st)
  /\ length (inflight st') = (length (inflight st) + forceCheckAllDownCount st)%nat
  /\ (forceCheckAllDownCount st
       <= length (List.filter (fun km => Monitor.enabled km.2)
                    (map_to_list (monitors st))))%nat.
Proof.
  intros Hwk st'. subst st'. unfold forceCheckAllDown.
  rewrite forceCheckAllDown_fold, (sweepTick_spawns now st Hwk).
  cbn [monitors timers inflight].
  split; [reflexivity|]. split; [reflexivity|]. split; [reflexivity|].
  split; [reflexivity|].
  split; [rewrite length_app, length_map; reflexivity|].
  unfold forceCheckAllDownCount, downMonitors.
  generalize (map_to_list (monitors st)) as l.
  induction l as [|km l IH]; [reflexivity|].
  cbn [List.filter]. unfold isDownEnabled at 1.
  destruct (Monitor.enabled km.2); cbn [andb].
  - destruct (statusIsDown _); cbn [length]; lia.
  - exact IH.
Qed.

(** * Further concrete runs *)

Lemma alert_reports_recorded_point_witness :
  In downAlert (checkOnce netFail 0 monUp false).2
  /\ (exists p, In p (checkPoints netFail 0 monUp false)
                /\ alertReports monUp downAlert p)
  /\ Alert.wasUp downAlert <> Alert.nowUp downAlert.
Proof.
  assert (In downAlert (checkOnce netFail 0 monUp false).2) as H
    by (vm_compute; left; reflexivity).
  split; [exact H|].
  pose proof (alert_reports_recorded_point netFail 0 monUp false downAlert H)
    as (H1 & _ & H2 & _).
  split; [exact H1 | exact H2].
Defined.

Lemma summary_mirrors_newest_point_witness :
  map_Forall (fun _ m => mirrorsNewest m) (monitors (startTimer "m1" 0 stFresh))
  /\ map_Forall (fun _ m => mirrorsNewest m)
       (monitors (run (startTimer "m1" 0 stFresh) [EvSettle 0 (net500 1%nat)])).
Proof.
  assert (map_Forall (fun _ m => mirrorsNewest m)
            (monitors (startTimer "m1" 0 stFresh))) as H.
  { apply map_Forall_singleton. intros p Hp. discriminate Hp. }
  split; [exact H|].
  exact (proj1 (summary_mirrors_newest_point (startTimer "m1" 0 stFresh)
                  [EvSettle 0 (net500 1%nat)] H)).
Defined.

Lemma no_timer_no_scheduled_check_witness :
  ("m1" ∉ timers stFresh)
  /\ (length (unforcedOf "m1"
                (run stFresh [EvTick "m1" 0; EvSweep 0; EvForceCheck "m1" 0]))
      <= length (unforcedOf "m1" stFresh))%nat.
Proof.
  assert ("m1" ∉ timers stFresh) as H by compute_done.
  split; [exact H|].
  exact (proj1 (no_timer_no_scheduled_check stFresh "m1"
                  [EvTick "m1" 0; EvSweep 0; EvForceCheck "m1" 0] H)).
Defined.


Lemma save_then_load_restores_witness :
  map_Forall (fun k m => Monitor.id m = k /\ persistable m) regChecked
  /\ [toRaw monChecked] ≡ₚ (map_to_list (saveMonitors regChecked)).*2
  /\ loadEntries asciiOps (fun _ => "fresh"%string) (Some <$> [toRaw monChecked]) ∅
     = regChecked.
Proof.
  assert (map_Forall (fun k m => Monitor.id m = k /\ persistable m) regChecked)
    as H1.
  { apply map_Forall_singleton. split; [reflexivity|].
    unfold persistable.
    split; [discriminate|]. split; [discriminate|]. split; [discriminate|].
    split; [discriminate|].
    split; [exists 5000%Q; split; reflexivity|].
    split; [vm_compute; lia | reflexivity]. }
  assert ([toRaw monChecked] ≡ₚ (map_to_list (saveMonitors regChecked)).*2) as H2.
  { unfold saveMonitors, regChecked.
    rewrite map_fmap_singleton, map_to_list_singleton. reflexivity. }
  split; [exact H1|]. split; [exact H2|].
  exact (save_then_load_restores asciiOps (fun _ => "fresh"%string) regChecked
           [toRaw monChecked] H1 H2).
Defined.

Lemma patch_reconciles_timer_witness :
  monitors stFresh !! "m1" = Some mon1
  /\ Monitor.id mon1 = "m1"%string
  /\ patchMonitor asciiOps mon1 (patchIntervalOnly (JNum (Fin 3000))) = Ok monPatched
  /\ "m1" ∈ timers
       (patchHandler asciiOps "m1" (patchIntervalOnly (JNum (Fin 3000))) 0 stFresh).2
  /\ inflight
       (patchHandler asciiOps "m1" (patchIntervalOnly (JNum (Fin 3000))) 0 stFresh).2
     = inflight stFresh ++ [scheduledTask 0 "m1"].
Proof.
  assert (monitors stFresh !! "m1" = Some mon1) as H1 by (vm_compute; reflexivity).
  assert (Monitor.id mon1 = "m1"%string) as H2 by reflexivity.
  assert (patchMonitor asciiOps mon1 (patchIntervalOnly (JNum (Fin 3000)))
          = Ok monPatched) as H3 by (vm_compute; reflexivity).
  split; [exact H1|]. split; [exact H2|]. split; [exact H3|].
  pose proof (patch_reconciles_timer asciiOps "m1"
                (patchIntervalOnly (JNum (Fin 3000))) 0 stFresh mon1 H1 H2)
    as (H & _).
  destruct (H monPatched H3) as (_ & _ & _ & Hen & _).
  exact (Hen eq_refl).
Defined.

Lemma force_check_down_is_a_sweep_witness :
  wellKeyed stThree
  /\ forceCheckAllDown 0 stThree = sweepTick 0 stThree
  /\ length (inflight (forceCheckAllDown 0 stThree)) = 2%nat.
Proof.
  split; [exact stThree_wellKeyed|].
  pose proof (force_check_down_is_a_sweep 0 stThree stThree_wellKeyed)
    as (H1 & _ & _ & _ & H2 & _).
  split; [exact H1|]. rewrite H2. vm_compute. reflexivity.
Defined.
